(** * nxpkeygen: key-type resolution and key-pair provisioning

    A shallow embedding of [spsdk/apps/nxpkeygen.py] (the [main] command and
    [get_list_of_supported_keys]) together with the Python library functions
    it relies on ([str.lower], [str.strip], [in], [str.replace], [int],
    [os.path.splitext], [os.path.dirname], [click.Choice]).

    Python strings are modelled as [string] (8-bit characters); paths follow
    [posixpath].  The file system is a finite map from paths to file
    contents plus a set of directories; every call into a helper or into the
    crypto package is recorded, in call order, in the world's call log. *)

From Stdlib Require Import ZArith Ascii String Lia Bool.
From stdpp Require Import gmap strings list fin_maps.

Local Open Scope Z_scope.

(* ===================================================================== *)
(** * Python [str] operations *)
(* ===================================================================== *)

Module PyStr.

Definition code (c : ascii) : N := N_of_ascii c.

Definition is_upper (c : ascii) : bool := ((65 <=? code c) && (code c <=? 90))%N.
Definition is_lower (c : ascii) : bool := ((97 <=? code c) && (code c <=? 122))%N.
Definition is_digit (c : ascii) : bool := ((48 <=? code c) && (code c <=? 57))%N.

(** [str.isspace] on one character: tab, line feed, vertical tab, form
    feed, carriage return, the four separators 0x1c..0x1f and the space. *)
Definition is_space (c : ascii) : bool :=
  (((9 <=? code c) && (code c <=? 13)) || ((28 <=? code c) && (code c <=? 32)))%N.

Definition lower_char (c : ascii) : ascii :=
  if is_upper c then ascii_of_N (code c + 32) else c.
Definition upper_char (c : ascii) : ascii :=
  if is_lower c then ascii_of_N (code c - 32) else c.

Fixpoint map_chars (f : ascii -> ascii) (s : string) : string :=
  match s with
  | EmptyString => EmptyString
  | String c r => String (f c) (map_chars f r)
  end.

(** [s.lower()], [s.upper()]; [s.casefold()] agrees with [lower] on the
    characters modelled here. *)
Definition lower : string -> string := map_chars lower_char.
Definition upper : string -> string := map_chars upper_char.
Definition casefold : string -> string := lower.

(** [s.lstrip()], [s.rstrip()], [s.strip()] with no argument. *)
Fixpoint lstrip (s : string) : string :=
  match s with
  | EmptyString => EmptyString
  | String c r => if is_space c then lstrip r else s
  end.

Fixpoint rstrip (s : string) : string :=
  match s with
  | EmptyString => EmptyString
  | String c r =>
      match rstrip r with
      | EmptyString => if is_space c then EmptyString else String c EmptyString
      | r' => String c r'
      end
  end.

Definition strip (s : string) : string := rstrip (lstrip s).

(** [s.startswith(pre)] *)
Fixpoint startswith (pre s : string) : bool :=
  match pre, s with
  | EmptyString, _ => true
  | String a pre', String b s' => Ascii.eqb a b && startswith pre' s'
  | String _ _, EmptyString => false
  end.

(** [sub in s] *)
Fixpoint contains (sub s : string) : bool :=
  startswith sub s ||
  match s with
  | EmptyString => false
  | String _ r => contains sub r
  end.

(** [s.replace(old, new)] for a non-empty [old]: occurrences are found
    left to right and do not overlap.  [skip] counts the characters of a
    matched occurrence that are still to be dropped. *)
Fixpoint replace_from (old new : string) (skip : nat) (s : string) : string :=
  match s with
  | EmptyString => EmptyString
  | String c r =>
      match skip with
      | S k => replace_from old new k r
      | O =>
          if startswith old s
          then new +:+ replace_from old new (String.length old - 1) r
          else String c (replace_from old new 0 r)
      end
  end.

Definition replace (old new s : string) : string := replace_from old new 0 s.

(** [sep.join(items)] *)
Fixpoint join (sep : string) (items : list string) : string :=
  match items with
  | [] => EmptyString
  | [x] => x
  | x :: rest => x +:+ sep +:+ join sep rest
  end.

Definition digit_value (c : ascii) : Z := Z.of_N (code c) - 48.

(** The digits of a decimal literal: single underscores are allowed
    between digits only. *)
Fixpoint parse_digits (s : string) (acc : Z) (after_digit : bool) : option Z :=
  match s with
  | EmptyString => if after_digit then Some acc else None
  | String c r =>
      if is_digit c then parse_digits r (10 * acc + digit_value c) true
      else if Ascii.eqb c "_" && after_digit then
        match r with
        | EmptyString => None
        | String d _ => if is_digit d then parse_digits r acc false else None
        end
      else None
  end.

(** [int(s)] in base 10; [None] stands for [ValueError]. *)
Definition int (s : string) : option Z :=
  match strip s with
  | EmptyString => None
  | String c r =>
      if Ascii.eqb c "-" then Z.opp <$> parse_digits r 0 false
      else if Ascii.eqb c "+" then parse_digits r 0 false
      else parse_digits (String c r) 0 false
  end.

(** [s.rfind(c)] for a one-character [c]: the highest index, or [-1]. *)
Fixpoint rfind (c : ascii) (s : string) : Z :=
  match s with
  | EmptyString => -1
  | String a r =>
      let i := rfind c r in
      if 0 <=? i then i + 1 else if Ascii.eqb a c then 0 else -1
  end.

(** [s[:n]] and [s[n:]] for [0 <= n]. *)
Fixpoint str_take (n : nat) (s : string) : string :=
  match n, s with
  | S k, String a r => String a (str_take k r)
  | _, _ => EmptyString
  end.

Fixpoint str_drop (n : nat) (s : string) : string :=
  match n, s with
  | S k, String _ r => str_drop k r
  | _, _ => s
  end.

Definition slice_to (i : Z) (s : string) : string := str_take (Z.to_nat i) s.
Definition slice_from (i : Z) (s : string) : string := str_drop (Z.to_nat i) s.
(** [s[i:j]] for [0 <= i]. *)
Definition slice (i j : Z) (s : string) : string :=
  str_take (Z.to_nat (j - i)) (str_drop (Z.to_nat i) s).

(** [c * n] *)
Fixpoint repeat_char (c : ascii) (n : nat) : string :=
  match n with
  | O => EmptyString
  | S k => String c (repeat_char c k)
  end.

(** [s.rstrip(c)] for a one-character [c]. *)
Fixpoint rstrip_char (c : ascii) (s : string) : string :=
  match s with
  | EmptyString => EmptyString
  | String a r =>
      match rstrip_char c r with
      | EmptyString => if Ascii.eqb a c then EmptyString else String a EmptyString
      | r' => String a r'
      end
  end.

End PyStr.

(* ===================================================================== *)
(** * [os.path] (posixpath) *)
(* ===================================================================== *)

Module OsPath.
Import PyStr.

Definition sep : ascii := "/"%char.
Definition extsep : ascii := "."%char.

(** The loop of [genericpath._splitext] that skips the leading dots of the
    last component: it runs while [filenameIndex < dotIndex], so [todo] is
    [dotIndex - filenameIndex]. *)
Fixpoint splitext_scan (todo : nat) (p : string) (filenameIndex dotIndex : Z)
  : option (string * string) :=
  match todo with
  | O => None
  | S k =>
      if negb (String.eqb (slice filenameIndex (filenameIndex + 1) p)
                          (String extsep EmptyString))
      then Some (slice_to dotIndex p, slice_from dotIndex p)
      else splitext_scan k p (filenameIndex + 1) dotIndex
  end.

(** [os.path.splitext(p)] *)
Definition splitext (p : string) : string * string :=
  let sepIndex := rfind sep p in
  let dotIndex := rfind extsep p in
  if sepIndex <? dotIndex then
    let filenameIndex := sepIndex + 1 in
    match splitext_scan (Z.to_nat (dotIndex - filenameIndex)) p filenameIndex dotIndex with
    | Some r => r
    | None => (p, EmptyString)
    end
  else (p, EmptyString).

(** [os.path.dirname(p)] *)
Definition dirname (p : string) : string :=
  let i := rfind sep p + 1 in
  let head := slice_to i p in
  if negb (String.eqb head EmptyString)
     && negb (String.eqb head (repeat_char sep (String.length head)))
  then rstrip_char sep head
  else head.

(** [os.path.basename(p)] *)
Definition basename (p : string) : string :=
  slice_from (rfind sep p + 1) p.

End OsPath.

Import PyStr OsPath.


(* ===================================================================== *)
(** * The world: file system, entropy and the crypto package *)
(* ===================================================================== *)

(** Keys are symbolic: a private key records what it was generated for and
    the entropy it was drawn from; a public key records the private key it
    was derived from. *)
Inductive PrivateKey : Type :=
| RsaPrivateKey (key_size : Z) (secret : nat)
| EccPrivateKey (curve_name : string) (secret : nat).

Inductive PublicKey : Type :=
| RsaPublicKey (priv : PrivateKey)
| EccPublicKey (priv : PrivateKey).

(** What a file holds.  [encryption = Some pw] is a private key serialized
    under password [pw]; [None] is the unencrypted serialization.
    [TornFile] is what a write that failed half-way leaves: a truncated or
    partly written file. *)
Inductive FileData : Type :=
| PrivateKeyFile (key : PrivateKey) (encryption : option string)
| PublicKeyFile (key : PublicKey)
| OtherFile (content : string)
| TornFile.

Inductive Error : Type :=
| InvalidChoice          (* click: invalid choice for an option *)
| ValueError             (* Python ValueError: int(), logging level *)
| InvalidDestination
| FileExists
| PersistenceFailed
| CollaboratorFailure.

(** One entry per call that [main] makes into [spsdk.apps.utils] and
    [spsdk.crypto], with the arguments of the call. *)
Inductive Call : Type :=
| CheckDestinationDir (path : string) (create_folder : bool)
| CheckFileExists (path : string) (force_overwrite : bool)
| GenerateRsaPrivateKey (key_size : Z)
| GenerateRsaPublicKey (priv : PrivateKey)
| SaveRsaPrivateKey (priv : PrivateKey) (path : string) (password : option string)
| SaveRsaPublicKey (pub : PublicKey) (path : string)
| GenerateEccPrivateKey (curve_name : string)
| GenerateEccPublicKey (priv : PrivateKey)
| SaveEccPrivateKey (priv : PrivateKey) (path : string) (password : option string)
| SaveEccPublicKey (pub : PublicKey) (path : string).

Record World : Type := mkWorld {
  files : gmap string FileData;   (* regular files, by path *)
  dirs : gset string;             (* existing directories *)
  locked : gset string;           (* paths that cannot be written *)
  torn : gset string;             (* of those, the paths that are opened and
                                     truncated before the write fails *)
  entropy : nat;                  (* state of the random source *)
  calls : list Call;              (* call log, oldest first *)
}.

(** What the crypto package can do; the core never looks inside. *)
Record Collaborator : Type := mkCollaborator {
  curve_types : list string;        (* ec._CURVE_TYPES.keys() *)
  rsa_generates : Z -> bool;        (* key sizes the RSA generator accepts *)
  ecc_generates : string -> bool;   (* names the curve lookup accepts *)
}.

(** ** State and error monad *)

Definition M (A : Type) : Type := World -> (Error + A) * World.

Definition ret {A} (a : A) : M A := fun w => (inr a, w).
Definition raise {A} (e : Error) : M A := fun w => (inl e, w).
Definition bind {A B} (m : M A) (k : A -> M B) : M B :=
  fun w => match m w with
           | (inr a, w') => k a w'
           | (inl e, w') => (inl e, w')
           end.

Notation "'let*' x ':=' m 'in' k" := (bind m (fun x => k))
  (at level 10, x name, m at level 100, k at level 200).
Notation "m ';;;' k" := (bind m (fun _ => k))
  (at level 100, k at level 200, right associativity).

Definition get : M World := fun w => (inr w, w).
Definition put (w : World) : M unit := fun _ => (inr tt, w).

Definition log_call (c : Call) : M unit :=
  fun w => (inr tt, mkWorld (files w) (dirs w) (locked w) (torn w) (entropy w) (calls w ++ [c])).

Definition make_dirs (d : string) : M unit :=
  fun w => (inr tt, mkWorld (files w) ({[d]} ∪ dirs w) (locked w) (torn w) (entropy w) (calls w)).

Definition draw_entropy : M nat :=
  fun w => (inr (entropy w), mkWorld (files w) (dirs w) (locked w) (torn w) (S (entropy w)) (calls w)).

(** [open(path, "wb")] followed by a write of [data].  Opening fails, and
    touches nothing, when the parent directory is missing or the path is a
    directory.  A path in [locked] cannot be written: either it cannot be
    opened, and nothing is touched, or (when it is in [torn] too) it is
    opened and truncated and the write then fails, which leaves a torn
    file behind. *)
Definition write_file (path : string) (data : FileData) : M unit :=
  fun w =>
    let parent := dirname path in
    if bool_decide (parent ≠ EmptyString ∧ parent ∉ dirs w)
       || bool_decide (path ∈ dirs w) || bool_decide (path ∈ locked w)
    then
      if negb (bool_decide (parent ≠ EmptyString ∧ parent ∉ dirs w)
               || bool_decide (path ∈ dirs w))
         && bool_decide (path ∈ torn w)
      then (inl PersistenceFailed,
            mkWorld (<[path := TornFile]> (files w)) (dirs w) (locked w) (torn w)
                    (entropy w) (calls w))
      else (inl PersistenceFailed, w)
    else (inr tt, mkWorld (<[path := data]> (files w)) (dirs w) (locked w) (torn w)
                          (entropy w) (calls w)).

Definition lift_option {A} (e : Error) (o : option A) : M A :=
  match o with Some a => ret a | None => raise e end.

(* ===================================================================== *)
(** * The helpers and the crypto package *)
(* ===================================================================== *)

(** Modelled from the spec: [spsdk.apps.utils.check_destination_dir], whose
    code is not part of the sources at hand.  The parent directory of the
    path must exist; with the flag set it is created instead. *)
Definition check_destination_dir (path : string) (create_folder : bool) : M unit :=
  log_call (CheckDestinationDir path create_folder) ;;;
  let* w := get in
  let dest_dir := dirname path in
  if bool_decide (dest_dir = EmptyString) then ret tt
  else if bool_decide (dest_dir ∈ dirs w) then ret tt
  else if create_folder then make_dirs dest_dir
  else raise InvalidDestination.

(** Modelled from the spec: [spsdk.apps.utils.check_file_exists], whose code
    is not part of the sources at hand.  Without the force flag a path
    that already exists on disk is refused with [FileExists]. *)
Definition check_file_exists (path : string) (force_overwrite : bool) : M unit :=
  log_call (CheckFileExists path force_overwrite) ;;;
  let* w := get in
  if force_overwrite then ret tt
  else if bool_decide (is_Some (files w !! path)) then raise FileExists
  else ret tt.

Section Crypto.
Variable crypto : Collaborator.

(** Modelled from the spec: [spsdk.crypto.generate_rsa_private_key] and the
    other functions of [spsdk.crypto] below, whose code is not part of the
    sources at hand.  Generation draws from the
    collaborator's random source and may be refused by the collaborator;
    saving a private key encrypts it under the password when one is
    passed and serializes it unencrypted otherwise; saving a public key
    takes no password. *)
Definition generate_rsa_private_key (key_size : Z) : M PrivateKey :=
  log_call (GenerateRsaPrivateKey key_size) ;;;
  if rsa_generates crypto key_size
  then let* secret := draw_entropy in ret (RsaPrivateKey key_size secret)
  else raise CollaboratorFailure.

(** Modelled from the spec: [spsdk.crypto.generate_rsa_public_key], not
    part of the sources at hand; the public key of a private key. *)
Definition generate_rsa_public_key (priv : PrivateKey) : M PublicKey :=
  log_call (GenerateRsaPublicKey priv) ;;;
  ret (RsaPublicKey priv).

(** Modelled from the spec: [spsdk.crypto.save_rsa_private_key], not part
    of the sources at hand; encrypted under the password when one is
    passed, unencrypted when it is absent. *)
Definition save_rsa_private_key (priv : PrivateKey) (path : string)
                                (password : option string) : M unit :=
  log_call (SaveRsaPrivateKey priv path password) ;;;
  write_file path (PrivateKeyFile priv password).

(** Modelled from the spec: [spsdk.crypto.save_rsa_public_key], not part of
    the sources at hand; it takes no password. *)
Definition save_rsa_public_key (pub : PublicKey) (path : string) : M unit :=
  log_call (SaveRsaPublicKey pub path) ;;;
  write_file path (PublicKeyFile pub).

(** Modelled from the spec: [spsdk.crypto.generate_ecc_private_key], not
    part of the sources at hand; the curve name goes to the collaborator's
    curve lookup as it is. *)
Definition generate_ecc_private_key (curve_name : string) : M PrivateKey :=
  log_call (GenerateEccPrivateKey curve_name) ;;;
  if ecc_generates crypto curve_name
  then let* secret := draw_entropy in ret (EccPrivateKey curve_name secret)
  else raise CollaboratorFailure.

(** Modelled from the spec: [spsdk.crypto.generate_ecc_public_key], not
    part of the sources at hand. *)
Definition generate_ecc_public_key (priv : PrivateKey) : M PublicKey :=
  log_call (GenerateEccPublicKey priv) ;;;
  ret (EccPublicKey priv).

(** Modelled from the spec: [spsdk.crypto.save_ecc_private_key], not part
    of the sources at hand; as for RSA. *)
Definition save_ecc_private_key (priv : PrivateKey) (path : string)
                                (password : option string) : M unit :=
  log_call (SaveEccPrivateKey priv path password) ;;;
  write_file path (PrivateKeyFile priv password).

(** Modelled from the spec: [spsdk.crypto.save_ecc_public_key], not part of
    the sources at hand; it takes no password. *)
Definition save_ecc_public_key (pub : PublicKey) (path : string) : M unit :=
  log_call (SaveEccPublicKey pub path) ;;;
  write_file path (PublicKeyFile pub).

(* =================================================================== *)
(** * nxpkeygen *)
(* =================================================================== *)

(** [logging._nameToLevel] and the module constant derived from it. *)
Definition nameToLevel : list string :=
  ["CRITICAL"; "FATAL"; "ERROR"; "WARN"; "WARNING"; "INFO"; "DEBUG"; "NOTSET"].

Definition LOG_LEVEL_NAMES : list string := map lower nameToLevel.

(** [logging.basicConfig(level=...)]: an unknown level name is a
    [ValueError]; the logging configuration itself is not part of the
    world, and neither is what [logger.info] prints. *)
Definition logging_basicConfig (level : string) : M unit :=
  if bool_decide (level ∈ nameToLevel) then ret tt else raise ValueError.

Definition get_list_of_supported_keys : list string :=
  let ret := ["rsa2048"; "rsa3072"; "rsa4096"] in
  ret ++ curve_types crypto.

(** Line 103 and 104: the normalized token and its classification. *)
Definition key_param (key_type : string) : string := strip (lower key_type).
Definition is_rsa (key_type : string) : bool := contains "rsa" (key_param key_type).

(** Line 108. *)
Definition pub_key_path (path : string) : string := fst (splitext path) +:+ ".pub".

(** [password if password else None]: the empty string is falsy. *)
Definition password_or_none (password : option string) : option string :=
  match password with
  | Some pw => if bool_decide (pw = EmptyString) then None else Some pw
  | None => None
  end.

Definition main (log_level key_type path : string) (password : option string)
                (force : bool) : M Z :=
  logging_basicConfig (upper log_level) ;;;
  let key_param := key_param key_type in
  let is_rsa := is_rsa key_type in
  check_destination_dir path force ;;;
  check_file_exists path force ;;;
  let pub_key_path := pub_key_path path in
  check_file_exists pub_key_path force ;;;
  (if is_rsa then
     let* key_size := lift_option ValueError (int (replace "rsa" EmptyString key_param)) in
     let* priv_key_rsa := generate_rsa_private_key key_size in
     let* pub_key_rsa := generate_rsa_public_key priv_key_rsa in
     save_rsa_private_key priv_key_rsa path (password_or_none password) ;;;
     save_rsa_public_key pub_key_rsa pub_key_path
   else
     let* priv_key_ec := generate_ecc_private_key key_param in
     let* pub_key_ec := generate_ecc_public_key priv_key_ec in
     save_ecc_private_key priv_key_ec path (password_or_none password) ;;;
     save_ecc_public_key pub_key_ec pub_key_path) ;;;
  ret 0.

(* =================================================================== *)
(** * The command line (click) *)
(* =================================================================== *)

(** A Python [dict] with string keys, in insertion order: setting a key
    that is present keeps its place and replaces its value. *)
Fixpoint dict_set (k v : string) (d : list (string * string)) : list (string * string) :=
  match d with
  | [] => [(k, v)]
  | (k', v') :: r =>
      if String.eqb k' k then (k', v) :: r else (k', v') :: dict_set k v r
  end.

Fixpoint dict_get (k : string) (d : list (string * string)) : option string :=
  match d with
  | [] => None
  | (k', v') :: r => if String.eqb k' k then Some v' else dict_get k r
  end.

(** [click.Choice(choices, case_sensitive).convert(value, ...)] with no
    token normalization function: the value is matched against the
    choices (case-folded unless case sensitive) and the original choice
    is returned; [None] stands for the usage error "invalid choice". *)
Definition choice_convert (choices : list string) (case_sensitive : bool)
                          (value : string) : option string :=
  let normed_value := value in
  let normed_choices := fold_left (fun d choice => dict_set choice choice d) choices [] in
  let normed_value := if case_sensitive then normed_value else casefold normed_value in
  let normed_choices :=
    if case_sensitive then normed_choices
    else fold_left (fun d kv => dict_set (casefold (fst kv)) (snd kv) d) normed_choices [] in
  dict_get normed_value normed_choices.

(** The [--key-type] option as the decorator builds it. *)
Record KeyTypeOption : Type := mkKeyTypeOption {
  opt_choices : list string;      (* type=click.Choice(...), line 60 *)
  opt_case_sensitive : bool;
  opt_default : string;
  opt_all_options : string;       (* the list printed in the help, line 76 *)
}.

(** One evaluation of the expression [get_list_of_supported_keys()] while
    the module is loaded; [n] counts the evaluations made so far. *)
Definition call_get_list_of_supported_keys (n : nat) : list string * nat :=
  (get_list_of_supported_keys, S n).

(** Lines 57 to 78: the decorator's arguments are evaluated in order. *)
Definition key_type_option (n : nat) : KeyTypeOption * nat :=
  let '(choices, n) := call_get_list_of_supported_keys n in
  let '(all_options, n) := call_get_list_of_supported_keys n in
  (mkKeyTypeOption choices false "RSA2048" (join ", " all_options), n).

(** The values given on the command line. *)
Record Args : Type := mkArgs {
  arg_debug : option string;
  arg_key_type : option string;
  arg_password : option string;
  arg_path : string;
  arg_force : bool;
}.

(** The click command: options are converted, then [main] is called. *)
Definition cli (opt : KeyTypeOption) (a : Args) : M Z :=
  let* log_level :=
    lift_option InvalidChoice
      (choice_convert LOG_LEVEL_NAMES true (default "warning" (arg_debug a))) in
  let* key_type :=
    lift_option InvalidChoice
      (choice_convert (opt_choices opt) (opt_case_sensitive opt)
                      (default (opt_default opt) (arg_key_type a))) in
  main log_level key_type (arg_path a) (arg_password a) (arg_force a).

(** A process: the command built when the module was loaded, and the
    world it runs in. *)
Record Process : Type := mkProcess {
  proc_option : KeyTypeOption;
  proc_loads : nat;               (* evaluations of the key list at load *)
  proc_world : World;
}.

Definition load_module (w : World) : Process :=
  let '(opt, n) := key_type_option 0 in mkProcess opt n w.

Definition invoke (a : Args) (p : Process) : (Error + Z) * Process :=
  let '(r, w') := cli (proc_option p) a (proc_world p) in
  (r, mkProcess (proc_option p) (proc_loads p) w').

End Crypto.

(** A collaborator with the named curves of the [cryptography] package. *)
Definition sample_curves : list string :=
  ["prime192v1"; "prime256v1"; "secp192r1"; "secp224r1"; "secp256r1"; "secp384r1";
   "secp521r1"; "secp256k1"; "sect163k1"; "sect233k1"; "sect283k1"; "sect409k1";
   "sect571k1"; "sect163r2"; "sect233r1"; "sect283r1"; "sect409r1"; "sect571r1";
   "brainpoolP256r1"; "brainpoolP384r1"; "brainpoolP512r1"].

Definition sample_crypto : Collaborator :=
  mkCollaborator sample_curves
    (fun key_size => 512 <=? key_size)
    (fun name => existsb (fun k => String.eqb (lower k) (lower name)) sample_curves).

Definition empty_world : World := mkWorld ∅ ∅ ∅ ∅ 0 [].

(** A world in which both key files of [out/key.pem] are already there. *)
Definition stocked_world : World :=
  mkWorld {[ "out/key.pem" := OtherFile "old private key";
             "out/key.pub" := OtherFile "old public key" ]}
          {[ "out" ]} ∅ ∅ 0 [].


(** ** Observations on runs *)

Definition public_of (priv : PrivateKey) : PublicKey :=
  match priv with
  | RsaPrivateKey _ _ => RsaPublicKey priv
  | EccPrivateKey _ _ => EccPublicKey priv
  end.

(** The calls a run has added to the log of [w]. *)
Definition new_calls (w w' : World) : list Call :=
  drop (length (calls w)) (calls w').

(** The step of the workflow a call belongs to. *)
Inductive Step : Type :=
| CheckDir | CheckFile | GeneratePrivate | DerivePublic | SavePrivate | SavePublic.

Definition step_of (c : Call) : Step :=
  match c with
  | CheckDestinationDir _ _ => CheckDir
  | CheckFileExists _ _ => CheckFile
  | GenerateRsaPrivateKey _ | GenerateEccPrivateKey _ => GeneratePrivate
  | GenerateRsaPublicKey _ | GenerateEccPublicKey _ => DerivePublic
  | SaveRsaPrivateKey _ _ _ | SaveEccPrivateKey _ _ _ => SavePrivate
  | SaveRsaPublicKey _ _ | SaveEccPublicKey _ _ => SavePublic
  end.

Definition step_order : list Step :=
  [CheckDir; CheckFile; CheckFile; GeneratePrivate; DerivePublic; SavePrivate; SavePublic].

(** Every file lies in a directory that exists (or in the current one). *)
Definition parents_exist (w : World) : Prop :=
  map_Forall (fun p _ => dirname p = EmptyString \/ dirname p ∈ dirs w) (files w).

(** ** Shapes of paths *)

(** A string of dots only (the empty string included). *)
Definition all_dots (s : string) : bool :=
  String.eqb s (repeat_char extsep (String.length s)).

(** The last component of [r] has a character that is not a dot: [r] can
    carry an extension. *)
Definition has_stem (r : string) : bool := negb (all_dots (basename r)).

(** A dot followed by characters that are neither dots nor separators. *)
Definition is_extension (e : string) : bool :=
  match e with
  | EmptyString => false
  | String c x =>
      Ascii.eqb c extsep && negb (contains (String extsep EmptyString) x)
                         && negb (contains (String sep EmptyString) x)
  end.

(** ** The plan of a run *)

(** The key pair the collaborator hands out for a token when the random
    source is in state [secret]; [None] when the RSA size does not parse. *)
Definition planned_key (key_type : string) (secret : nat) : option (Call * PrivateKey) :=
  if is_rsa key_type then
    match int (replace "rsa" EmptyString (key_param key_type)) with
    | Some key_size => Some (GenerateRsaPrivateKey key_size, RsaPrivateKey key_size secret)
    | None => None
    end
  else Some (GenerateEccPrivateKey (key_param key_type),
             EccPrivateKey (key_param key_type) secret).

(** The calls of a run in which nothing fails, in program order. *)
Definition planned_calls (key_type path : string) (password : option string)
                         (force : bool) (secret : nat) : list Call :=
  [CheckDestinationDir path force; CheckFileExists path force;
   CheckFileExists (pub_key_path path) force] ++
  match planned_key key_type secret with
  | None => []
  | Some (gen, priv) =>
      if is_rsa key_type then
        [gen; GenerateRsaPublicKey priv;
         SaveRsaPrivateKey priv path (password_or_none password);
         SaveRsaPublicKey (RsaPublicKey priv) (pub_key_path path)]
      else
        [gen; GenerateEccPublicKey priv;
         SaveEccPrivateKey priv path (password_or_none password);
         SaveEccPublicKey (EccPublicKey priv) (pub_key_path path)]
  end.


(** ** Further observations *)

(** Whether the collaborator generates the key that the token asks for. *)
Definition collaborator_accepts (crypto : Collaborator) (key_type : string) : bool :=
  if is_rsa key_type then
    match int (replace "rsa" EmptyString (key_param key_type)) with
    | Some key_size => rsa_generates crypto key_size
    | None => false
    end
  else ecc_generates crypto (key_param key_type).

(** The calls into the RSA half and into the elliptic-curve half of the
    crypto package. *)
Definition is_rsa_call (c : Call) : bool :=
  match c with
  | GenerateRsaPrivateKey _ | GenerateRsaPublicKey _
  | SaveRsaPrivateKey _ _ _ | SaveRsaPublicKey _ _ => true
  | _ => false
  end.

Definition is_ecc_call (c : Call) : bool :=
  match c with
  | GenerateEccPrivateKey _ | GenerateEccPublicKey _
  | SaveEccPrivateKey _ _ _ | SaveEccPublicKey _ _ => true
  | _ => false
  end.


(* ===================================================================== *)
(** * Facts about strings and paths *)
(* ===================================================================== *)

Module StrFacts.
#[local] Arguments String.append : simpl nomatch.
Implicit Types (s t u : string) (c a : ascii) (n : nat).

Lemma app_nil_r s : s +:+ EmptyString = s.
Proof. induction s as [|a s IH]; simpl; [done | by rewrite IH]. Qed.

Lemma app_assoc s t u : (s +:+ t) +:+ u = s +:+ (t +:+ u).
Proof. induction s as [|a s IH]; simpl; [done | by rewrite IH]. Qed.

Lemma length_app s t :
  String.length (s +:+ t) = (String.length s + String.length t)%nat.
Proof. induction s as [|a s IH]; simpl; [done | by rewrite IH]. Qed.

Lemma app_inv_tail s1 s2 t : s1 +:+ t = s2 +:+ t -> s1 = s2.
Proof.
  revert s2. induction s1 as [|a s1 IH]; intros [|b s2] H; simpl in H.
  - done.
  - apply (f_equal String.length) in H. simpl in H. rewrite length_app in H. lia.
  - apply (f_equal String.length) in H. simpl in H. rewrite length_app in H. lia.
  - injection H as -> H. f_equal. by apply IH.
Qed.

Lemma take_drop n s : str_take n s +:+ str_drop n s = s.
Proof.
  revert n. induction s as [|a s IH]; intros [|n]; simpl; try done.
  by rewrite IH.
Qed.

Lemma take_app_le n s t :
  (n <= String.length s)%nat -> str_take n (s +:+ t) = str_take n s.
Proof.
  revert n. induction s as [|a s IH]; intros [|n] H; simpl in *; try done; try lia.
  rewrite IH; [done | lia].
Qed.

Lemma drop_app_le n s t :
  (n <= String.length s)%nat -> str_drop n (s +:+ t) = str_drop n s +:+ t.
Proof.
  revert n. induction s as [|a s IH]; intros [|n] H; simpl in *; try done; try lia.
  apply IH. lia.
Qed.

Lemma take_all s : str_take (String.length s) s = s.
Proof. induction s as [|a s IH]; simpl; [done | by rewrite IH]. Qed.

Lemma drop_all s : str_drop (String.length s) s = EmptyString.
Proof. induction s as [|a s IH]; simpl; done. Qed.

Lemma length_drop n s :
  String.length (str_drop n s) = (String.length s - n)%nat.
Proof. revert n. induction s as [|a s IH]; intros [|n]; simpl; auto. Qed.

Lemma drop_lt_cons n s :
  (n < String.length s)%nat ->
  exists a, str_drop n s = String a (str_drop (S n) s).
Proof.
  revert n. induction s as [|a s IH]; intros [|n] H; simpl in *; try lia.
  - by exists a.
  - apply IH. lia.
Qed.

(** ** [rfind] *)

Lemma rfind_cons c a s :
  rfind c (String a s) =
  if 0 <=? rfind c s then rfind c s + 1 else if Ascii.eqb a c then 0 else -1.
Proof. reflexivity. Qed.

Lemma rfind_bounds c s : -1 <= rfind c s < Z.of_nat (String.length s).
Proof.
  induction s as [|a s IH]; simpl; [lia|].
  destruct (0 <=? rfind c s) eqn:E; [lia|].
  destruct (Ascii.eqb a c); lia.
Qed.

Lemma rfind_app_absent c s t : rfind c t = -1 -> rfind c (s +:+ t) = rfind c s.
Proof.
  intros H. induction s as [|a s IH]; simpl; [done | by rewrite IH].
Qed.

Lemma rfind_app_present c s t :
  0 <= rfind c t -> rfind c (s +:+ t) = Z.of_nat (String.length s) + rfind c t.
Proof.
  intros H. induction s as [|a s IH]; simpl; [lia|].
  rewrite IH. destruct (0 <=? _) eqn:E; lia.
Qed.

Lemma rfind_drop_absent c s n :
  rfind c s < Z.of_nat n -> rfind c (str_drop n s) = -1.
Proof.
  revert n. induction s as [|a s IH]; intros [|n] H; simpl in *; try done.
  - pose proof (rfind_bounds c s). destruct (0 <=? rfind c s) eqn:E; [lia|].
    destruct (Ascii.eqb a c); lia.
  - apply IH. destruct (0 <=? rfind c s) eqn:E; [lia|].
    pose proof (rfind_bounds c s). lia.
Qed.

Lemma rfind_absent_drop c s n :
  rfind c (str_drop n s) = -1 -> rfind c s < Z.of_nat n.
Proof.
  revert n. induction s as [|a s IH]; intros [|n] H; simpl in *; try lia.
  specialize (IH n H). destruct (0 <=? rfind c s) eqn:E; [lia|].
  destruct (Ascii.eqb a c); lia.
Qed.

Lemma contains_char_rfind c s :
  contains (String c EmptyString) s = false -> rfind c s = -1.
Proof.
  induction s as [|a s IH]; simpl; [done|].
  rewrite andb_true_r. intros [H1 H2]%orb_false_elim.
  rewrite (IH H2). simpl. rewrite Ascii.eqb_sym. by rewrite H1.
Qed.

Lemma rfind_contains_char c s :
  rfind c s = -1 -> contains (String c EmptyString) s = false.
Proof.
  induction s as [|a s IH]; simpl; [done|].
  pose proof (rfind_bounds c s).
  destruct (0 <=? rfind c s) eqn:E; [lia|].
  rewrite andb_true_r, (Ascii.eqb_sym c a).
  destruct (Ascii.eqb a c); [lia|]. intros _. apply IH. lia.
Qed.

End StrFacts.

Module PathFacts.
Import StrFacts.
#[local] Arguments String.append : simpl nomatch.
Implicit Types (p r e : string).

Lemma splitext_scan_cases todo p f d :
  splitext_scan todo p f d = None \/
  splitext_scan todo p f d = Some (slice_to d p, slice_from d p).
Proof.
  revert f. induction todo as [|k IH]; intros f; simpl; [by left|].
  destruct (negb _); [by right | apply IH].
Qed.

(** Either there is no extension, or the path is cut at its last dot,
    which lies after its last separator. *)
Lemma splitext_cases p :
  splitext p = (p, EmptyString) \/
  (rfind sep p < rfind extsep p /\
   splitext p = (slice_to (rfind extsep p) p, slice_from (rfind extsep p) p)).
Proof.
  unfold splitext. destruct (rfind sep p <? rfind extsep p) eqn:E; [|by left].
  apply Z.ltb_lt in E.
  destruct (splitext_scan_cases (Z.to_nat (rfind extsep p - (rfind sep p + 1))) p
              (rfind sep p + 1) (rfind extsep p)) as [-> | ->]; [by left | by right].
Qed.

Lemma splitext_join p : fst (splitext p) +:+ snd (splitext p) = p.
Proof.
  destruct (splitext_cases p) as [-> | [_ ->]]; simpl.
  - apply app_nil_r.
  - apply take_drop.
Qed.

Lemma splitext_ext_no_sep p : rfind sep (snd (splitext p)) = -1.
Proof.
  destruct (splitext_cases p) as [-> | [Hlt ->]]; simpl; [done|].
  apply rfind_drop_absent. pose proof (rfind_bounds sep p). lia.
Qed.

(** The extension is empty or begins at a dot and holds no other dot. *)
Lemma splitext_ext_shape p :
  snd (splitext p) = EmptyString \/
  exists x, snd (splitext p) = String extsep x /\ rfind extsep x = -1.
Proof.
  destruct (splitext_cases p) as [-> | [Hlt ->]]; simpl; [by left|]. right.
  pose proof (rfind_bounds sep p) as Hs. pose proof (rfind_bounds extsep p) as Hd.
  unfold slice_from.
  destruct (drop_lt_cons (Z.to_nat (rfind extsep p)) p) as [a Ha]; [lia|].
  assert (Hx : rfind extsep (str_drop (S (Z.to_nat (rfind extsep p))) p) = -1)
    by (apply rfind_drop_absent; lia).
  exists (str_drop (S (Z.to_nat (rfind extsep p))) p). split; [|done].
  rewrite Ha. f_equal.
  (* the character at the last dot is a dot *)
  pose proof (take_drop (Z.to_nat (rfind extsep p)) p) as Hp.
  rewrite Ha in Hp.
  assert (Hr : rfind extsep (String a (str_drop (S (Z.to_nat (rfind extsep p))) p)) <> -1).
  { intros Habs. pose proof (rfind_app_absent extsep
      (str_take (Z.to_nat (rfind extsep p)) p) _ Habs) as Hq.
    rewrite Hp in Hq.
    pose proof (rfind_bounds extsep (str_take (Z.to_nat (rfind extsep p)) p)) as Hb.
    assert (String.length (str_take (Z.to_nat (rfind extsep p)) p)
            <= Z.to_nat (rfind extsep p))%nat.
    { clear. generalize (Z.to_nat (rfind extsep p)). intros n. revert n.
      induction p as [|b p IH]; intros [|n]; simpl; try lia.
      specialize (IH n). lia. }
    lia. }
  rewrite rfind_cons, Hx in Hr. change (0 <=? -1) with false in Hr.
  destruct (Ascii.eqb a extsep) eqn:E; [by apply Ascii.eqb_eq in E | done].
Qed.

Lemma dirname_app_no_sep r x : rfind sep x = -1 -> dirname (r +:+ x) = dirname r.
Proof.
  intros H. unfold dirname. rewrite (rfind_app_absent _ _ _ H).
  pose proof (rfind_bounds sep r).
  unfold slice_to. rewrite take_app_le by lia. done.
Qed.

Lemma splitext_no_dot p :
  contains (String extsep EmptyString) (basename p) = false -> splitext p = (p, EmptyString).
Proof.
  intros H%contains_char_rfind. unfold basename, slice_from in H.
  apply rfind_absent_drop in H. pose proof (rfind_bounds sep p).
  unfold splitext. destruct (rfind sep p <? rfind extsep p) eqn:E; [|done].
  apply Z.ltb_lt in E. lia.
Qed.

Lemma splitext_scan_spec todo p (f : nat) d :
  (f + todo <= String.length p)%nat ->
  splitext_scan todo p (Z.of_nat f) d =
  if String.eqb (str_take todo (str_drop f p)) (repeat_char extsep todo)
  then None else Some (slice_to d p, slice_from d p).
Proof.
  revert f. induction todo as [|k IH]; intros f Hf; [done|].
  destruct (drop_lt_cons f p) as [a Ha]; [lia|].
  cbn [splitext_scan]. unfold slice.
  replace (Z.to_nat (Z.of_nat f + 1 - Z.of_nat f)) with 1%nat by lia.
  rewrite Nat2Z.id, Ha. cbn [str_take repeat_char String.eqb].
  replace (Z.of_nat f + 1) with (Z.of_nat (S f)) by lia.
  rewrite IH by lia.
  destruct (Ascii.eqb a extsep) eqn:E; simpl; [|done].
  by destruct k.
Qed.

Lemma is_extension_inv e :
  is_extension e = true ->
  exists x, e = String extsep x /\ rfind extsep x = -1 /\ rfind sep x = -1.
Proof.
  destruct e as [|c x]; [done|]. simpl.
  intros [[Hc Hd%negb_true_iff]%andb_prop Hs%negb_true_iff]%andb_prop.
  apply Ascii.eqb_eq in Hc as ->. exists x.
  split; [done|]. split; by apply contains_char_rfind.
Qed.

(** A root with a stem followed by an extension splits back into the two. *)
Lemma splitext_root_ext r e :
  has_stem r = true -> is_extension e = true -> splitext (r +:+ e) = (r, e).
Proof.
  intros Hr (x & -> & Hxd & Hxs)%is_extension_inv.
  assert (Hes : rfind sep (String extsep x) = -1) by (rewrite rfind_cons, Hxs; done).
  assert (Hed : rfind extsep (String extsep x) = 0) by (rewrite rfind_cons, Hxd; done).
  pose proof (rfind_bounds sep r) as Hb.
  unfold splitext.
  rewrite (rfind_app_absent _ _ _ Hes), rfind_app_present, Hed by lia.
  rewrite Z.add_0_r.
  destruct (rfind sep r <? Z.of_nat (String.length r)) eqn:E;
    [|apply Z.ltb_ge in E; lia].
  set (f := Z.to_nat (rfind sep r + 1)).
  replace (rfind sep r + 1) with (Z.of_nat f) by lia.
  replace (Z.to_nat (Z.of_nat (String.length r) - Z.of_nat f))
    with (String.length (str_drop f r)) by (rewrite length_drop; lia).
  rewrite splitext_scan_spec; last first.
  { rewrite length_drop, length_app. lia. }
  rewrite drop_app_le, take_app_le, take_all by lia.
  unfold has_stem, all_dots, basename, slice_from in Hr. fold f in Hr.
  apply negb_true_iff in Hr. rewrite Hr.
  unfold slice_to, slice_from. rewrite Nat2Z.id.
  rewrite take_app_le, take_all by lia.
  rewrite drop_app_le, drop_all by lia. done.
Qed.

End PathFacts.

(* ===================================================================== *)
(** * Facts about [click.Choice] *)
(* ===================================================================== *)

Module ChoiceFacts.

Lemma dict_get_set k k' v d :
  dict_get k (dict_set k' v d) = if String.eqb k' k then Some v else dict_get k d.
Proof.
  induction d as [|[k0 v0] d IH]; simpl.
  - by destruct (String.eqb k' k).
  - destruct (String.eqb k0 k') eqn:E0; simpl.
    + apply String.eqb_eq in E0 as ->. by destruct (String.eqb k' k).
    + rewrite IH. destruct (String.eqb k0 k) eqn:E1; [|done].
      apply String.eqb_eq in E1 as ->. by rewrite String.eqb_sym, E0.
Qed.

Lemma dict_set_elem kv k v d :
  kv ∈ dict_set k v d -> kv = (k, v) \/ kv ∈ d.
Proof.
  induction d as [|[k0 v0] d IH]; simpl.
  - intros ->%list_elem_of_singleton. by left.
  - destruct (String.eqb k0 k) eqn:E.
    + apply String.eqb_eq in E as ->.
      intros [-> | H]%elem_of_cons; [by left | right; by apply elem_of_cons; right].
    + intros [-> | H]%elem_of_cons; [right; apply elem_of_cons; by left|].
      destruct (IH H) as [-> | H']; [by left | right; apply elem_of_cons; by right].
Qed.

Lemma dict_get_elem k v d : dict_get k d = Some v -> (k, v) ∈ d.
Proof.
  induction d as [|[k0 v0] d IH]; simpl; [done|].
  destruct (String.eqb k0 k) eqn:E.
  - apply String.eqb_eq in E as ->. intros [= ->]. apply elem_of_cons; by left.
  - intros H. apply elem_of_cons; right; auto.
Qed.

Lemma dict_elem_get k v d : (k, v) ∈ d -> is_Some (dict_get k d).
Proof.
  induction d as [|[k0 v0] d IH]; simpl; [by intros ?%elem_of_nil|].
  intros [[= -> ->] | H]%elem_of_cons.
  - by rewrite String.eqb_refl.
  - destruct (String.eqb k0 k); [done | auto].
Qed.

Section Fold.
Context {A : Type} (kf vf : A -> string).

Definition build (l : list A) (d0 : list (string * string)) :=
  fold_left (fun d x => dict_set (kf x) (vf x) d) l d0.

Lemma build_elem kv l d0 :
  kv ∈ build l d0 -> (exists x, x ∈ l /\ kv = (kf x, vf x)) \/ kv ∈ d0.
Proof.
  revert d0. induction l as [|x l IH]; intros d0; simpl; [by right|].
  intros [(y & Hy & ->) | [-> | H]%dict_set_elem]%IH.
  - left. exists y. split; [by apply elem_of_cons; right | done].
  - left. exists x. split; [by apply elem_of_cons; left | done].
  - by right.
Qed.

Lemma build_get_Some k v l d0 :
  dict_get k (build l d0) = Some v ->
  (exists x, x ∈ l /\ kf x = k /\ vf x = v) \/ dict_get k d0 = Some v.
Proof.
  revert d0. induction l as [|x l IH]; intros d0; simpl; [by right|].
  intros [(y & Hy & <- & <-) | H]%IH.
  - left. exists y. split; [by apply elem_of_cons; right | done].
  - rewrite dict_get_set in H. destruct (String.eqb (kf x) k) eqn:E; [|by right].
    apply String.eqb_eq in E. injection H as <-.
    left. exists x. split; [by apply elem_of_cons; left | done].
Qed.

Lemma build_get_None k l d0 :
  dict_get k (build l d0) = None <->
  (forall x, x ∈ l -> kf x <> k) /\ dict_get k d0 = None.
Proof.
  revert d0. induction l as [|x l IH]; intros d0; simpl.
  - split; [intros H; split; [by intros x ?%elem_of_nil | done] | by intros [_ H]].
  - rewrite IH, dict_get_set. split.
    + intros [Hl Hx]. destruct (String.eqb (kf x) k) eqn:E; [done|].
      apply String.eqb_neq in E. split; [|done].
      intros y [-> | Hy]%elem_of_cons; auto.
    + intros [Hl Hd]. split; [intros y Hy; apply Hl, elem_of_cons; by right|].
      destruct (String.eqb (kf x) k) eqn:E; [|done].
      apply String.eqb_eq in E. exfalso. eapply Hl; [|done]. apply elem_of_cons; by left.
Qed.
End Fold.

(** The first dictionary of [convert]: every choice under its own name. *)
Lemma own_names_elem kv (choices : list string) :
  kv ∈ build id id choices [] <-> fst kv = snd kv /\ snd kv ∈ choices.
Proof.
  split.
  - intros [(x & Hx & ->) | H%elem_of_nil]%build_elem; done.
  - destruct kv as [k v]; simpl. intros [-> Hv].
    destruct (dict_get v (build id id choices [])) as [v'|] eqn:E.
    + pose proof E as [(x & _ & <- & <-) | H]%build_get_Some; [|done].
      by apply dict_get_elem.
    + apply build_get_None in E as [E _]. by destruct (E v Hv).
Qed.

Lemma choice_convert_folded_Some choices value r :
  choice_convert choices false value = Some r ->
  r ∈ choices /\ casefold r = casefold value.
Proof.
  unfold choice_convert.
  change (fold_left _ choices []) with (build id id choices []).
  change (fold_left _ (build id id choices []) [])
    with (build (fun kv => casefold (fst kv)) snd (build id id choices []) []).
  intros [([k v] & [Hkv Hv]%own_names_elem & Hk & <-) | H]%build_get_Some; [|done].
  simpl in *. subst. done.
Qed.

Lemma choice_convert_folded_None choices value :
  choice_convert choices false value = None <->
  forall c, c ∈ choices -> casefold c <> casefold value.
Proof.
  unfold choice_convert.
  change (fold_left _ choices []) with (build id id choices []).
  change (fold_left _ (build id id choices []) [])
    with (build (fun kv => casefold (fst kv)) snd (build id id choices []) []).
  rewrite build_get_None. split.
  - intros [H _] c Hc. apply (H (c, c)). by apply own_names_elem.
  - intros H. split; [|done]. intros [k v] [Hkv Hv]%own_names_elem.
    simpl in *. subst. by apply H.
Qed.

Lemma choice_convert_exact_Some choices value r :
  choice_convert choices true value = Some r -> r = value /\ value ∈ choices.
Proof.
  unfold choice_convert.
  change (fold_left _ choices []) with (build id id choices []).
  intros [(x & Hx & <- & <-) | H]%build_get_Some; done.
Qed.

End ChoiceFacts.

Module RunFacts.

Ltac run_main :=
  unfold main, check_destination_dir, check_file_exists,
    generate_rsa_private_key, generate_rsa_public_key, save_rsa_private_key,
    save_rsa_public_key, generate_ecc_private_key, generate_ecc_public_key,
    save_ecc_private_key, save_ecc_public_key, logging_basicConfig,
    lift_option, write_file, draw_entropy, make_dirs, log_call, get, bind, ret, raise.

Ltac stopped_after k :=
  exists k; split; [reflexivity|]; split; [by intros ? [=] | intros; lia || tauto].

#[local] Opaque key_param is_rsa pub_key_path int replace dirname
  password_or_none upper.

(** Every run of [main] performs an initial segment of the planned calls;
    it stops within the first three only on a failed validation, and a
    run that returns has performed all of them and has written the two
    files, the private key first. *)
Lemma main_run crypto log_level key_type path password force w :
  let r := main crypto log_level key_type path password force w in
  exists n,
    calls (snd r) =
      calls w ++ take n (planned_calls key_type path password force (entropy w))
    /\ (forall z, fst r = inr z ->
          z = 0 /\ n = 7%nat /\
          exists gen priv,
            planned_key key_type (entropy w) = Some (gen, priv) /\
            files (snd r) =
              <[pub_key_path path := PublicKeyFile (public_of priv)]>
                (<[path := PrivateKeyFile priv (password_or_none password)]> (files w)))
    /\ ((n <= 3)%nat ->
          fst r = inl ValueError \/ fst r = inl InvalidDestination \/
          fst r = inl FileExists).
Proof.
  unfold planned_calls, planned_key. run_main. simpl.
  repeat (case_match; simplify_eq/=).
  all: rewrite <- ?(assoc_L (++)); simpl.
  all: first
    [ exists 7%nat; split; [reflexivity|]; split; [|intros; lia];
      intros ? [= <-]; split; [done|]; split; [done|];
      eexists _, _; split; reflexivity
    | exists 0%nat; rewrite app_nil_r; split; [reflexivity|];
      split; [by intros ? [=] | tauto]
    | stopped_after 1%nat | stopped_after 2%nat | stopped_after 3%nat
    | stopped_after 4%nat | stopped_after 5%nat | stopped_after 6%nat
    | stopped_after 7%nat ].
Qed.

#[local] Transparent key_param is_rsa pub_key_path int replace dirname
  password_or_none upper.

Lemma new_calls_app w w' l : calls w' = calls w ++ l -> new_calls w w' = l.
Proof. unfold new_calls. intros ->. apply drop_app_length. Qed.

Lemma planned_steps key_type path password force secret :
  step_of <$> planned_calls key_type path password force secret
  = take (length (planned_calls key_type path password force secret)) step_order.
Proof.
  unfold planned_calls. destruct (planned_key _ _) as [[gen priv]|] eqn:E; [|done].
  unfold planned_key in E.
  destruct (is_rsa key_type); [destruct (int _)|]; by simplify_eq.
Qed.

Lemma planned_checks key_type path password force secret :
  take 3 (planned_calls key_type path password force secret) =
  [CheckDestinationDir path force; CheckFileExists path force;
   CheckFileExists (pub_key_path path) force].
Proof. done. Qed.

(** The steps of the calls of a run form an initial segment of the
    fixed order. *)
Lemma main_steps crypto log_level key_type path password force w :
  exists m,
    step_of <$> new_calls w (snd (main crypto log_level key_type path password force w))
    = take m step_order.
Proof.
  destruct (main_run crypto log_level key_type path password force w) as (n & Hc & _).
  rewrite (new_calls_app _ _ _ Hc), fmap_take, planned_steps, take_take. eauto.
Qed.

Lemma new_calls_planned crypto log_level key_type path password force w c :
  c ∈ new_calls w (snd (main crypto log_level key_type path password force w)) ->
  c ∈ planned_calls key_type path password force (entropy w).
Proof.
  destruct (main_run crypto log_level key_type path password force w) as (n & Hc & _).
  rewrite (new_calls_app _ _ _ Hc). intros (i & Hi & _)%elem_of_take.
  by eapply list_elem_of_lookup_2.
Qed.

(** A run that returns has made every planned call and has written the
    private key, then the public key. *)
Lemma new_calls_returned crypto log_level key_type path password force w z :
  fst (main crypto log_level key_type path password force w) = inr z ->
  exists gen priv,
    planned_key key_type (entropy w) = Some (gen, priv) /\
    new_calls w (snd (main crypto log_level key_type path password force w)) =
      planned_calls key_type path password force (entropy w) /\
    files (snd (main crypto log_level key_type path password force w)) =
      <[pub_key_path path := PublicKeyFile (public_of priv)]>
        (<[path := PrivateKeyFile priv (password_or_none password)]> (files w)).
Proof.
  destruct (main_run crypto log_level key_type path password force w) as (n & Hc & Hr & _).
  intros Hz. destruct (Hr z Hz) as (_ & -> & gen & priv & Hk & Hf).
  exists gen, priv. split; [done|]. split; [|done].
  rewrite (new_calls_app _ _ _ Hc). apply take_ge.
  unfold planned_calls. rewrite Hk. by destruct (is_rsa key_type).
Qed.

Lemma planned_save_private key_type path password force secret gen priv :
  planned_key key_type secret = Some (gen, priv) ->
  SaveRsaPrivateKey priv path (password_or_none password)
    ∈ planned_calls key_type path password force secret \/
  SaveEccPrivateKey priv path (password_or_none password)
    ∈ planned_calls key_type path password force secret.
Proof.
  intros Hk. unfold planned_calls. rewrite Hk.
  destruct (is_rsa key_type); [left | right]; simpl; rewrite !elem_of_cons; tauto.
Qed.

Lemma planned_save_private_inv key_type path password force secret priv p pw :
  SaveRsaPrivateKey priv p pw ∈ planned_calls key_type path password force secret \/
  SaveEccPrivateKey priv p pw ∈ planned_calls key_type path password force secret ->
  p = path /\ pw = password_or_none password.
Proof.
  unfold planned_calls, planned_key.
  destruct (is_rsa key_type); [destruct (int _)|]; simpl;
    rewrite !elem_of_cons, !elem_of_nil; intros H;
    repeat (destruct H as [H | H]); try done; by simplify_eq.
Qed.

(** The private-key generation of a run: only the planned one is ever
    called, and it is called unless a validation fails. *)
Lemma main_generates crypto log_level key_type path password force w gen priv :
  planned_key key_type (entropy w) = Some (gen, priv) ->
  let r := main crypto log_level key_type path password force w in
  (forall c, c ∈ new_calls w (snd r) -> step_of c = GeneratePrivate -> c = gen) /\
  (fst r <> inl ValueError -> fst r <> inl InvalidDestination ->
   fst r <> inl FileExists -> new_calls w (snd r) !! 3%nat = Some gen).
Proof.
  intros Hk r. split.
  - intros c Hc%new_calls_planned Hs. unfold planned_calls in Hc. rewrite Hk in Hc.
    destruct (is_rsa key_type); simpl in Hc;
      rewrite !elem_of_cons, elem_of_nil in Hc; intuition (subst; done).
  - intros H1 H2 H3.
    destruct (main_run crypto log_level key_type path password force w)
      as (n & Hc & _ & Hv).
    fold r in Hc, Hv. rewrite (new_calls_app _ _ _ Hc).
    assert (3 < n)%nat by (destruct (decide (n <= 3)%nat); [tauto | lia]).
    rewrite lookup_take_lt by lia. unfold planned_calls. rewrite Hk.
    by destruct (is_rsa key_type).
Qed.

Lemma step_order_lookup (m i : nat) s :
  take m step_order !! i = Some s -> step_order !! i = Some s /\ (i < m)%nat.
Proof. by intros ?%lookup_take_Some. Qed.

(** ** Levels, tokens and paths as [main] sees them *)

Lemma known_level log_level :
  log_level ∈ LOG_LEVEL_NAMES -> upper log_level ∈ nameToLevel.
Proof.
  assert (H : Forall (fun l => upper l ∈ nameToLevel) LOG_LEVEL_NAMES)
    by (apply (bool_decide_unpack _); by vm_compute).
  rewrite Forall_forall in H. apply H.
Qed.

Lemma key_param_casefold key_type token :
  casefold key_type = casefold token -> key_param key_type = strip (casefold token).
Proof. unfold key_param, casefold. by intros ->. Qed.

Lemma rsa_tokens_planned key_type secret :
  key_type ∈ ["rsa2048"; "rsa3072"; "rsa4096"] ->
  exists suffix bits,
    key_param key_type = "rsa" +:+ suffix /\ int suffix = Some bits /\
    bits ∈ [2048; 3072; 4096] /\
    planned_key key_type secret
      = Some (GenerateRsaPrivateKey bits, RsaPrivateKey bits secret).
Proof.
  rewrite !elem_of_cons, elem_of_nil. intros [-> | [-> | [-> | []]]].
  - exists "2048", 2048. split; [reflexivity|]. split; [reflexivity|].
    split; [rewrite !elem_of_cons; tauto | reflexivity].
  - exists "3072", 3072. split; [reflexivity|]. split; [reflexivity|].
    split; [rewrite !elem_of_cons; tauto | reflexivity].
  - exists "4096", 4096. split; [reflexivity|]. split; [reflexivity|].
    split; [rewrite !elem_of_cons; tauto | reflexivity].
Qed.

(** With no curve name classified as RSA, an accepted token that is
    classified RSA is one of the three RSA choices. *)
Lemma accepted_rsa_token crypto token key_type :
  (forall c, c ∈ curve_types crypto -> is_rsa c = false) ->
  contains "rsa" (strip (casefold token)) = true ->
  choice_convert (get_list_of_supported_keys crypto) false token = Some key_type ->
  key_type ∈ ["rsa2048"; "rsa3072"; "rsa4096"] /\
  key_param key_type = strip (casefold token).
Proof.
  intros Hreg Hrsa [Hin Hfold]%ChoiceFacts.choice_convert_folded_Some.
  pose proof (key_param_casefold _ _ Hfold) as Hp. split; [|done].
  unfold get_list_of_supported_keys in Hin. apply elem_of_app in Hin as [H | H]; [done|].
  apply Hreg in H. unfold is_rsa in H. rewrite Hp in H. congruence.
Qed.

Lemma dirname_pub_key_path path : dirname (pub_key_path path) = dirname path.
Proof.
  unfold pub_key_path.
  rewrite <- (PathFacts.splitext_join path) at 2.
  rewrite PathFacts.dirname_app_no_sep by done.
  by rewrite PathFacts.dirname_app_no_sep by apply PathFacts.splitext_ext_no_sep.
Qed.

(** The public path is the private path exactly when the extension is
    already [.pub]. *)
Lemma pub_key_path_fixed path :
  pub_key_path path = path <-> snd (splitext path) = ".pub".
Proof.
  unfold pub_key_path. rewrite <- (PathFacts.splitext_join path) at 2. split.
  - intros H. by apply (inj (String.append (fst (splitext path)))) in H.
  - by intros ->.
Qed.

End RunFacts.

(* ===================================================================== *)
(** * Outcomes of [main] *)
(* ===================================================================== *)

Module OutcomeFacts.
Import RunFacts.

Ltac to_props :=
  repeat match goal with
         | H : bool_decide _ = true |- _ => apply bool_decide_eq_true_1 in H
         | H : bool_decide _ = false |- _ => apply bool_decide_eq_false_1 in H
         end.

Ltac few_calls :=
  eexists; split; [first [reflexivity | symmetry; apply app_nil_r]|]; simpl; lia.

#[local] Opaque key_param is_rsa pub_key_path int replace dirname
  password_or_none upper.

(** What a run of [main] leaves behind, by the way it ends: why it can
    fail with each error, and what the files are afterwards. *)
Lemma main_outcome crypto log_level key_type path password force w :
  let r := main crypto log_level key_type path password force w in
  let private := PrivateKeyFile in
  (fst r = inl ValueError ->
     upper log_level ∉ nameToLevel \/
     (is_rsa key_type = true /\
      int (replace "rsa" EmptyString (key_param key_type)) = None)) /\
  (fst r = inl InvalidDestination ->
     force = false /\ dirname path <> EmptyString /\ dirname path ∉ dirs w) /\
  (fst r = inl FileExists ->
     force = false /\
     (is_Some (files w !! path) \/ is_Some (files w !! pub_key_path path))) /\
  (fst r = inl CollaboratorFailure ->
     collaborator_accepts crypto key_type = false /\
     is_Some (planned_key key_type (entropy w))) /\
  (fst r = inl PersistenceFailed -> collaborator_accepts crypto key_type = true) /\
  fst r <> inl InvalidChoice /\
  ((files (snd r) = files w /\ (forall z, fst r <> inr z) /\
    exists l, calls (snd r) = calls w ++ l /\ (length l <= 6)%nat) \/
   (exists gen priv,
      planned_key key_type (entropy w) = Some (gen, priv) /\
      (force = true \/ (files w !! path = None /\ files w !! pub_key_path path = None)) /\
      ((fst r = inl PersistenceFailed /\
        files (snd r) = <[path := TornFile]> (files w) /\
        exists l, calls (snd r) = calls w ++ l /\ (length l <= 6)%nat) \/
       (calls (snd r) =
          calls w ++ planned_calls key_type path password force (entropy w) /\
        ((fst r = inl PersistenceFailed /\
          (files (snd r) =
             <[path := private priv (password_or_none password)]> (files w) \/
           files (snd r) =
             <[pub_key_path path := TornFile]>
               (<[path := private priv (password_or_none password)]> (files w)))) \/
         (fst r = inr 0 /\
          files (snd r) =
            <[pub_key_path path := PublicKeyFile (public_of priv)]>
              (<[path := private priv (password_or_none password)]> (files w)))))))).
Proof.
  unfold planned_calls, planned_key, collaborator_accepts. run_main. simpl.
  repeat (case_match; simplify_eq/=).
  all: to_props.
  all: rewrite <- ?(assoc_L (++)); simpl.
  all: repeat match goal with
         | H : ¬ is_Some _ |- _ => apply eq_None_not_Some in H
         end.
  all: split; [intros ?; simplify_eq; tauto|].
  all: split; [intros ?; simplify_eq; tauto|].
  all: split; [intros ?; simplify_eq; tauto|].
  all: split; [intros ?; simplify_eq; try (split; [done | eauto])|].
  all: split; [intros ?; simplify_eq; tauto|].
  all: split; [done|].
  all: first
    [ left; split; [reflexivity|]; split; [done|]; few_calls
    | right; eexists _, _; split; [reflexivity|]; split; [tauto|];
      first
        [ left; split; [reflexivity|]; split; [reflexivity|]; few_calls
        | right; split; [reflexivity|];
          first [ left; split; [reflexivity|]; left; reflexivity
                | left; split; [reflexivity|]; right; reflexivity
                | right; split; reflexivity ] ] ].
Qed.

#[local] Transparent key_param is_rsa pub_key_path int replace dirname
  password_or_none upper.

(** With a known log level, [ValueError] can only be the one of [int]. *)
Lemma main_value_error crypto log_level key_type path password force w :
  log_level ∈ LOG_LEVEL_NAMES ->
  fst (main crypto log_level key_type path password force w) = inl ValueError ->
  is_rsa key_type = true /\
  int (replace "rsa" EmptyString (key_param key_type)) = None.
Proof.
  intros Hl%known_level Hv.
  destruct (main_outcome crypto log_level key_type path password force w) as (Hc & _).
  destruct (Hc Hv) as [? | ?]; done.
Qed.

(** The files after a run: untouched, or (the checks having passed) the
    private-key path rewritten, or both output paths rewritten. *)
Lemma main_files crypto log_level key_type path password force w :
  let r := main crypto log_level key_type path password force w in
  files (snd r) = files w \/
  ((force = true \/ (files w !! path = None /\ files w !! pub_key_path path = None)) /\
   exists d1,
     files (snd r) = <[path := d1]> (files w) \/
     exists d2, files (snd r) = <[pub_key_path path := d2]> (<[path := d1]> (files w))).
Proof.
  intros r.
  destruct (main_outcome crypto log_level key_type path password force w)
    as (_ & _ & _ & _ & _ & _ & [(Hf & _) | (gen & priv & _ & Hfree & Hw)]);
    [by left | right]. fold r in Hw.
  split; [done|].
  destruct Hw as [(_ & Hf & _) | (_ & [[_ [Hf | Hf]] | [_ Hf]])]; eauto.
Qed.

End OutcomeFacts.

(* ===================================================================== *)
(** * Overwrite safety *)
(* ===================================================================== *)

Import RunFacts OutcomeFacts.

(** C1: without [--force], when the private-key path or the derived
    public-key path already exists (in a file system where every file has
    its directory, and with a log level that click lets through), the run
    stops with [FileExists]; only the destination check and the existence
    checks have been called by then, so no key was generated and no file
    written, and the files, directories and random source are as before. *)
Theorem C1_existing_file_refused crypto log_level key_type path password w :
  log_level ∈ LOG_LEVEL_NAMES ->
  parents_exist w ->
  is_Some (files w !! path) \/ is_Some (files w !! pub_key_path path) ->
  let r := main crypto log_level key_type path password false w in
  fst r = inl FileExists /\
  files (snd r) = files w /\ dirs (snd r) = dirs w /\ entropy (snd r) = entropy w /\
  (new_calls w (snd r) =
     [CheckDestinationDir path false; CheckFileExists path false] \/
   new_calls w (snd r) =
     [CheckDestinationDir path false; CheckFileExists path false;
      CheckFileExists (pub_key_path path) false]).
Proof.
  intros Hlevel%known_level Hwf Hex.
  assert (Hdir : dirname path = EmptyString \/ dirname path ∈ dirs w).
  { destruct Hex as [[d Hd] | [d Hd]].
    - apply (Hwf _ _ Hd).
    - rewrite <- dirname_pub_key_path. apply (Hwf _ _ Hd). }
  assert (Hd : bool_decide (dirname path = EmptyString) = true \/
               (bool_decide (dirname path = EmptyString) = false /\
                bool_decide (dirname path ∈ dirs w) = true)).
  { destruct (bool_decide (dirname path = EmptyString)) eqn:E; [by left | right].
    split; [done|]. apply bool_decide_eq_true_2.
    destruct Hdir as [H | H]; [|done]. by rewrite bool_decide_eq_true_2 in E. }
  assert (Hfiles : bool_decide (is_Some (files w !! path)) = true \/
                   (bool_decide (is_Some (files w !! path)) = false /\
                    bool_decide (is_Some (files w !! pub_key_path path)) = true)).
  { destruct (bool_decide (is_Some (files w !! path))) eqn:E; [by left | right].
    split; [done|]. apply bool_decide_eq_true_2.
    destruct Hex as [H | H]; [|done]. by rewrite bool_decide_eq_true_2 in E. }
  run_main. unfold new_calls.
  cbn -[upper dirname pub_key_path nameToLevel is_rsa key_param].
  rewrite (bool_decide_eq_true_2 _ Hlevel).
  destruct Hd as [-> | [-> ->]];
    cbn -[upper dirname pub_key_path nameToLevel is_rsa key_param];
    destruct Hfiles as [H1 | [H1 H2]]; rewrite H1;
    cbn -[upper dirname pub_key_path nameToLevel is_rsa key_param];
    rewrite ?H2;
    cbn -[upper dirname pub_key_path nameToLevel is_rsa key_param];
    rewrite <- ?(assoc_L (++)), drop_app_length; auto 10.
Qed.

Lemma C1_existing_file_refused_witness :
  let r := main sample_crypto "warning" "rsa2048" "out/key.pem" None false stocked_world in
  "warning" ∈ LOG_LEVEL_NAMES /\ parents_exist stocked_world /\
  is_Some (files stocked_world !! "out/key.pem") /\
  fst r = inl FileExists /\ files (snd r) = files stocked_world.
Proof.
  intros r.
  assert (H1 : "warning" ∈ LOG_LEVEL_NAMES)
    by (apply (bool_decide_unpack _); vm_compute; exact I).
  assert (H2 : parents_exist stocked_world)
    by (apply (bool_decide_unpack _); vm_compute; exact I).
  assert (H3 : is_Some (files stocked_world !! "out/key.pem"))
    by (apply (bool_decide_unpack _); vm_compute; exact I).
  destruct (C1_existing_file_refused sample_crypto "warning" "rsa2048" "out/key.pem"
              None stocked_world H1 H2 (or_introl H3)) as (Hr & Hf & _).
  exact (conj H1 (conj H2 (conj H3 (conj Hr Hf)))).
Defined.

(* ===================================================================== *)
(** * The public-key path *)
(* ===================================================================== *)

(** C2: for a private-key path that already ends in [.pub] the derived
    public-key path is the same path: [key.pub] is mapped to [key.pub], a
    run on it returns normally and leaves one file, the public key, the
    private key having been overwritten.  The two paths coincide exactly
    when the extension of the private-key path is [.pub]. *)
Theorem C2_pub_extension_gives_same_path :
  pub_key_path "key.pub" = "key.pub" /\
  (let r := main sample_crypto "warning" "rsa2048" "key.pub" None false empty_world in
   fst r = inr 0 /\
   files (snd r) = {[ "key.pub" := PublicKeyFile (RsaPublicKey (RsaPrivateKey 2048 0)) ]}) /\
  (forall path, pub_key_path path = path <-> snd (splitext path) = ".pub").
Proof.
  split; [reflexivity|]. split; [|apply pub_key_path_fixed].
  split; [by vm_compute|]. apply map_eq. intros p.
  change (files (snd (main sample_crypto "warning" "rsa2048" "key.pub" None false
                        empty_world)))
    with (<["key.pub" := PublicKeyFile (RsaPublicKey (RsaPrivateKey 2048 0))]>
            (<["key.pub" := PrivateKeyFile (RsaPrivateKey 2048 0) None]>
               (∅ : gmap string FileData))).
  by rewrite insert_insert_eq.
Qed.

(** C3, as stated, fails: two distinct paths that differ in their (valid)
    extension only have the same public-key path. *)
Lemma C3_different_extensions_collide :
  is_extension ".pem" = true /\ is_extension ".der" = true /\
  "key.pem" <> "key.der" /\ pub_key_path "key.pem" = pub_key_path "key.der".
Proof. by vm_compute. Qed.

(** C3, amended: the public-key path is a function of the private-key path
    that depends on its root (the path without its extension) only.  Two
    paths have the same public-key path exactly when they have the same
    root, so the derivation is injective among paths with one and the same
    extension; and for a root with a stem, changing the extension changes
    neither the public-key path, which is the root followed by [.pub], nor
    its base name. *)
Theorem C3_public_path_depends_on_root :
  (forall p q, p = q -> pub_key_path p = pub_key_path q) /\
  (forall p q, pub_key_path p = pub_key_path q <-> fst (splitext p) = fst (splitext q)) /\
  (forall p q, pub_key_path p = pub_key_path q ->
               snd (splitext p) = snd (splitext q) -> p = q) /\
  (forall r e1 e2,
     has_stem r = true -> is_extension e1 = true -> is_extension e2 = true ->
     pub_key_path (r +:+ e1) = r +:+ ".pub" /\
     pub_key_path (r +:+ e2) = pub_key_path (r +:+ e1) /\
     basename (pub_key_path (r +:+ e2)) = basename (pub_key_path (r +:+ e1))).
Proof.
  split; [by intros p q ->|]. split; [|split].
  - intros p q. unfold pub_key_path. split; [apply StrFacts.app_inv_tail | by intros ->].
  - intros p q H%StrFacts.app_inv_tail He.
    by rewrite <- (PathFacts.splitext_join p), <- (PathFacts.splitext_join q), H, He.
  - intros r e1 e2 Hr H1 H2. unfold pub_key_path.
    by rewrite !PathFacts.splitext_root_ext.
Qed.

Lemma C3_public_path_depends_on_root_witness :
  has_stem "out/key" = true /\ is_extension ".pem" = true /\ is_extension ".der" = true /\
  pub_key_path "out/key.pem" = "out/key.pub" /\
  pub_key_path "out/key.der" = pub_key_path "out/key.pem".
Proof.
  assert (H0 : has_stem "out/key" = true) by reflexivity.
  assert (H1 : is_extension ".pem" = true) by reflexivity.
  assert (H2 : is_extension ".der" = true) by reflexivity.
  destruct C3_public_path_depends_on_root as (_ & _ & _ & H).
  destruct (H "out/key" ".pem" ".der" H0 H1 H2) as (Ha & Hb & _).
  exact (conj H0 (conj H1 (conj H2 (conj Ha Hb)))).
Defined.

(** C10: when the last component of the private-key path has no dot, the
    public-key path is the private-key path followed by [.pub]; it differs
    from the private-key path, and a run that returns leaves the private
    key in the one file and the public key in the other. *)
Theorem C10_no_extension_appends_pub crypto log_level key_type path password force w :
  contains "." (basename path) = false ->
  let r := main crypto log_level key_type path password force w in
  pub_key_path path = path +:+ ".pub" /\
  pub_key_path path <> path /\
  (forall z, fst r = inr z ->
     exists priv,
       files (snd r) !! path = Some (PrivateKeyFile priv (password_or_none password)) /\
       files (snd r) !! (path +:+ ".pub") = Some (PublicKeyFile (public_of priv))).
Proof.
  intros Hdot r.
  assert (Hp : pub_key_path path = path +:+ ".pub")
    by (unfold pub_key_path; by rewrite (PathFacts.splitext_no_dot _ Hdot)).
  assert (Hne : pub_key_path path <> path).
  { rewrite pub_key_path_fixed, (PathFacts.splitext_no_dot _ Hdot). done. }
  do 2 (split; [done|]). intros z Hz.
  destruct (new_calls_returned _ _ _ _ _ _ _ _ Hz) as (gen & priv & _ & _ & Hf).
  fold r in Hf. exists priv. rewrite Hf, <- Hp. split.
  - rewrite lookup_insert_ne by done. by rewrite lookup_insert_eq.
  - by rewrite lookup_insert_eq.
Qed.

Lemma C10_no_extension_appends_pub_witness :
  let r := main sample_crypto "info" "secp384r1" "out/devkey" None true empty_world in
  contains "." (basename "out/devkey") = false /\
  pub_key_path "out/devkey" = "out/devkey.pub" /\
  fst r = inr 0 /\
  exists priv,
    files (snd r) !! "out/devkey" = Some (PrivateKeyFile priv None) /\
    files (snd r) !! "out/devkey.pub" = Some (PublicKeyFile (public_of priv)).
Proof.
  intros r.
  assert (H0 : contains "." (basename "out/devkey") = false) by reflexivity.
  assert (Hz : fst r = inr 0) by (vm_compute; reflexivity).
  destruct (C10_no_extension_appends_pub sample_crypto "info" "secp384r1" "out/devkey"
              None true empty_world H0) as (Hp & _ & Hw).
  split; [exact H0|]. split; [exact Hp|]. split; [exact Hz|].
  exact (Hw 0 Hz).
Defined.

(* ===================================================================== *)
(** * The password *)
(* ===================================================================== *)

(** C4, as stated, fails: a run given the empty string as password is the
    same run as one given no password, and the private key is saved with
    no password at all. *)
Lemma C4_empty_password_handled_as_absent :
  let run password :=
    main sample_crypto "warning" "rsa2048" "key.pem" password false empty_world in
  run (Some EmptyString) = run None /\
  new_calls empty_world (snd (run (Some EmptyString))) !! 5%nat
    = Some (SaveRsaPrivateKey (RsaPrivateKey 2048 0) "key.pem" None).
Proof. split; vm_compute; reflexivity. Qed.

(** C4, amended: the private key is only ever saved to the private-key
    path and with [password if password else None] as its password; a run
    that returns has made that call.  A password that is present and not
    empty is passed on unchanged; an absent password and the empty string
    are both passed on as absent. *)
Theorem C4_truthy_password_reaches_collaborator
    crypto log_level key_type path password force w :
  let r := main crypto log_level key_type path password force w in
  let done := new_calls w (snd r) in
  (forall priv p pw,
     SaveRsaPrivateKey priv p pw ∈ done \/ SaveEccPrivateKey priv p pw ∈ done ->
     p = path /\ pw = password_or_none password) /\
  (forall z, fst r = inr z ->
     exists priv,
       SaveRsaPrivateKey priv path (password_or_none password) ∈ done \/
       SaveEccPrivateKey priv path (password_or_none password) ∈ done) /\
  (forall pw, password = Some pw -> pw <> EmptyString -> password_or_none password = Some pw) /\
  (password = None \/ password = Some EmptyString -> password_or_none password = None).
Proof.
  intros r done. split; [|split; [|split]].
  - intros priv p pw H. apply (planned_save_private_inv key_type path password force
                                 (entropy w) priv).
    destruct H as [H | H]; [left | right]; by eapply new_calls_planned.
  - intros z Hz.
    destruct (new_calls_returned _ _ _ _ _ _ _ _ Hz) as (gen & priv & Hk & Hn & _).
    exists priv. unfold done, r. rewrite Hn. by eapply planned_save_private.
  - intros pw -> Hpw. simpl. by rewrite bool_decide_eq_false_2.
  - intros [-> | ->]; done.
Qed.

Lemma C4_truthy_password_reaches_collaborator_witness :
  let r := main sample_crypto "warning" "secp256r1" "out/dev.pem" (Some "s3cret") true
             empty_world in
  fst r = inr 0 /\
  exists priv,
    SaveRsaPrivateKey priv "out/dev.pem" (Some "s3cret") ∈ new_calls empty_world (snd r) \/
    SaveEccPrivateKey priv "out/dev.pem" (Some "s3cret") ∈ new_calls empty_world (snd r).
Proof.
  intros r.
  assert (Hz : fst r = inr 0) by (vm_compute; reflexivity).
  destruct (C4_truthy_password_reaches_collaborator sample_crypto "warning" "secp256r1"
              "out/dev.pem" (Some "s3cret") true empty_world) as (_ & Hs & _).
  split; [exact Hz|]. exact (Hs 0 Hz).
Defined.

(** C5, as stated, fails: with the empty string supplied as password the
    run returns and the private-key file is not encrypted. *)
Lemma C5_empty_password_leaves_key_unencrypted :
  let r := main sample_crypto "warning" "rsa2048" "key.pem" (Some EmptyString) false empty_world in
  fst r = inr 0 /\
  files (snd r) !! "key.pem" = Some (PrivateKeyFile (RsaPrivateKey 2048 0) None) /\
  files (snd r) !! "key.pem" <> Some (PrivateKeyFile (RsaPrivateKey 2048 0) (Some EmptyString)).
Proof. split; [|split]; vm_compute; [reflexivity | reflexivity | discriminate]. Qed.

(** C5, amended: a run that returns has written the private key to the
    private-key path and then the public key to the public-key path.  The
    private key is encrypted under the password when a non-empty password
    was supplied, and unencrypted when none or the empty string was; the
    public-key file holds the public key of that private key, with no
    encryption, whatever the password. *)
Theorem C5_private_file_encryption crypto log_level key_type path password force w z :
  let r := main crypto log_level key_type path password force w in
  fst r = inr z ->
  exists priv encryption,
    files (snd r) =
      <[pub_key_path path := PublicKeyFile (public_of priv)]>
        (<[path := PrivateKeyFile priv encryption]> (files w)) /\
    files (snd r) !! pub_key_path path = Some (PublicKeyFile (public_of priv)) /\
    (path <> pub_key_path path ->
     files (snd r) !! path = Some (PrivateKeyFile priv encryption)) /\
    (forall pw, password = Some pw -> pw <> EmptyString -> encryption = Some pw) /\
    (password = None \/ password = Some EmptyString -> encryption = None).
Proof.
  intros r Hz.
  destruct (new_calls_returned _ _ _ _ _ _ _ _ Hz) as (gen & priv & Hk & _ & Hf).
  exists priv, (password_or_none password). fold r in Hf.
  split; [done|]. rewrite Hf. split; [by rewrite lookup_insert_eq|]. split.
  - intros Hne. by rewrite lookup_insert_ne, lookup_insert_eq.
  - split.
    + intros pw -> Hpw. simpl. by rewrite bool_decide_eq_false_2.
    + intros [-> | ->]; done.
Qed.

Lemma C5_private_file_encryption_witness :
  let r := main sample_crypto "warning" "secp256r1" "out/dev.pem" (Some "s3cret") true
             stocked_world in
  fst r = inr 0 /\
  exists priv,
    files (snd r) !! "out/dev.pub" = Some (PublicKeyFile (public_of priv)) /\
    files (snd r) !! "out/dev.pem" = Some (PrivateKeyFile priv (Some "s3cret")).
Proof.
  intros r.
  assert (Hz : fst r = inr 0) by (vm_compute; reflexivity).
  destruct (C5_private_file_encryption sample_crypto "warning" "secp256r1" "out/dev.pem"
              (Some "s3cret") true stocked_world 0 Hz)
    as (priv & encryption & _ & Hpub & Hpriv & Henc & _).
  split; [exact Hz|]. exists priv. split; [exact Hpub|].
  rewrite <- (Henc "s3cret" eq_refl ltac:(discriminate)).
  apply Hpriv. vm_compute. discriminate.
Defined.

(* ===================================================================== *)
(** * Key-type tokens *)
(* ===================================================================== *)

(** C6, as stated, fails: the token [ rsa2048] (with a leading blank)
    contains [rsa] once case-folded and trimmed and its numeric suffix is
    the supported size 2048, yet the key-type option, which folds case but
    does not trim, refuses it as an invalid choice and no key is
    generated. *)
Lemma C6_padded_rsa_token_is_refused :
  let token := " rsa2048" in
  contains "rsa" (strip (casefold token)) = true /\
  strip (casefold token) = "rsa" +:+ "2048" /\ int "2048" = Some 2048 /\
  choice_convert (get_list_of_supported_keys sample_crypto) false token = None /\
  cli sample_crypto (fst (key_type_option sample_crypto 0))
      (mkArgs None (Some token) None "key.pem" false) empty_world
  = (inl InvalidChoice, empty_world).
Proof. repeat split; vm_compute; reflexivity. Qed.

(** C6, amended: let no curve name of the registry be classified RSA, and
    take a token that contains [rsa] once case-folded and trimmed.  The
    key-type option accepts it exactly when the token itself, case-folded
    but not trimmed, is [rsa2048], [rsa3072] or [rsa4096].  For an
    accepted token the run is classified RSA, the token is [rsa] followed
    by a numeric suffix that is 2048, 3072 or 4096, [int] never fails on
    it, the only private-key generation a run can call is the RSA one with
    that very size, and with a known log level it is called unless the
    destination or a file-existence check fails.  Every other token, in
    particular one with any other numeric suffix, is refused by the
    command line as an invalid choice, before [main] is called and with
    the world untouched. *)
Theorem C6_accepted_rsa_token_size crypto token :
  (forall c, c ∈ curve_types crypto -> is_rsa c = false) ->
  contains "rsa" (strip (casefold token)) = true ->
  let choices := get_list_of_supported_keys crypto in
  let rsa_tokens := ["rsa2048"; "rsa3072"; "rsa4096"] in
  (forall key_type,
     choice_convert choices false token = Some key_type ->
     key_type = casefold token /\ is_rsa key_type = true /\
     exists suffix bits,
       casefold token = "rsa" +:+ suffix /\ int suffix = Some bits /\
       bits ∈ [2048; 3072; 4096] /\
       forall log_level path password force w,
         let r := main crypto log_level key_type path password force w in
         (forall c, c ∈ new_calls w (snd r) -> step_of c = GeneratePrivate ->
                    c = GenerateRsaPrivateKey bits) /\
         (log_level ∈ LOG_LEVEL_NAMES -> fst r <> inl ValueError) /\
         (log_level ∈ LOG_LEVEL_NAMES ->
          fst r <> inl InvalidDestination -> fst r <> inl FileExists ->
          new_calls w (snd r) !! 3%nat = Some (GenerateRsaPrivateKey bits))) /\
  (is_Some (choice_convert choices false token) <-> casefold token ∈ rsa_tokens) /\
  (casefold token ∉ rsa_tokens ->
   forall a w,
     arg_key_type a = Some token ->
     cli crypto (fst (key_type_option crypto 0)) a w = (inl InvalidChoice, w)) /\
  (forall suffix n,
     strip (casefold token) = "rsa" +:+ suffix -> int suffix = Some n ->
     n ∉ [2048; 3072; 4096] -> casefold token ∉ rsa_tokens).
Proof.
  intros Hreg Hrsa choices rsa_tokens.
  assert (Hfix : forall c, c ∈ rsa_tokens -> casefold c = c /\ strip c = c).
  { intros c Hc. unfold rsa_tokens in Hc. rewrite !elem_of_cons, elem_of_nil in Hc.
    destruct Hc as [-> | [-> | [-> | []]]]; by split. }
  assert (Hacc : forall key_type,
             choice_convert choices false token = Some key_type ->
             key_type ∈ rsa_tokens /\ key_type = casefold token).
  { intros key_type Hk.
    destruct (accepted_rsa_token _ _ _ Hreg Hrsa Hk) as [Hin _].
    split; [done|].
    apply ChoiceFacts.choice_convert_folded_Some in Hk as [_ Hf].
    by rewrite <- Hf, (proj1 (Hfix _ Hin)). }
  assert (Hiff : is_Some (choice_convert choices false token)
                 <-> casefold token ∈ rsa_tokens).
  { split.
    - intros [key_type Hk]. destruct (Hacc _ Hk) as [Hin <-]. done.
    - intros Hin.
      destruct (choice_convert choices false token) as [key_type|] eqn:Hk; [eauto|].
      exfalso. rewrite ChoiceFacts.choice_convert_folded_None in Hk.
      apply (Hk (casefold token)).
      + unfold choices, get_list_of_supported_keys. apply elem_of_app. by left.
      + by apply Hfix. }
  split; [|split; [done|split]].
  - intros key_type Hk. destruct (Hacc _ Hk) as [Hin Heq].
    split; [done|].
    destruct (rsa_tokens_planned key_type 0 Hin) as (suffix & bits & Hs & Hi & Hb & _).
    assert (Hp : key_param key_type = key_type)
      by (unfold key_param, lower; destruct (Hfix _ Hin) as [H1 H2];
          unfold casefold, lower in H1; by rewrite H1, H2).
    split; [unfold is_rsa; rewrite Hs; done|].
    assert (Hs2 : casefold token = "rsa" +:+ suffix) by congruence.
    exists suffix, bits. do 3 (split; [done|]).
    intros log_level path password force w.
    destruct (rsa_tokens_planned key_type (entropy w) Hin)
      as (suffix' & bits' & Hs' & Hi' & _ & Hplan).
    assert (suffix' = suffix) as -> by (apply (inj (String.append "rsa")); congruence).
    assert (bits' = bits) as -> by congruence.
    destruct (main_generates crypto log_level key_type path password force w _ _ Hplan)
      as [Hgen Hcall].
    assert (Hnv : log_level ∈ LOG_LEVEL_NAMES ->
                  fst (main crypto log_level key_type path password force w)
                  <> inl ValueError).
    { intros Hl Hv. destruct (main_value_error _ _ _ _ _ _ _ Hl Hv) as [Hr0 Hi0].
      unfold planned_key in Hplan. rewrite Hr0, Hi0 in Hplan. done. }
    split; [exact Hgen|]. split; [exact Hnv|].
    intros Hl H1 H2. apply Hcall; [by apply Hnv | done | done].
  - intros Hout a w Ha. unfold cli, bind, lift_option.
    destruct (choice_convert LOG_LEVEL_NAMES true _); [|done]. simpl.
    rewrite Ha. simpl. fold choices.
    destruct (choice_convert choices false token) as [key_type|] eqn:Hk; [|done].
    exfalso. apply Hout, Hiff. eauto.
  - intros suffix n Hs Hi Hn Hin.
    destruct (Hfix _ Hin) as [_ Hst]. rewrite Hst in Hs.
    unfold rsa_tokens in Hin. rewrite !elem_of_cons, elem_of_nil in Hin.
    destruct Hin as [Hin | [Hin | [Hin | []]]]; rewrite Hin in Hs;
      apply (inj (String.append "rsa")) in Hs as <-;
      apply Hn; vm_compute in Hi; injection Hi as <-;
      rewrite !elem_of_cons; tauto.
Qed.

Lemma C6_accepted_rsa_token_size_witness :
  (forall c, c ∈ curve_types sample_crypto -> is_rsa c = false) /\
  contains "rsa" (strip (casefold "RSA3072")) = true /\
  choice_convert (get_list_of_supported_keys sample_crypto) false "RSA3072"
    = Some "rsa3072" /\
  is_rsa "rsa3072" = true /\
  new_calls empty_world
    (snd (main sample_crypto "warning" "rsa3072" "key.pem" None false empty_world))
    !! 3%nat = Some (GenerateRsaPrivateKey 3072).
Proof.
  assert (H1 : forall c, c ∈ curve_types sample_crypto -> is_rsa c = false).
  { apply Forall_forall. apply (bool_decide_unpack _). vm_compute. exact I. }
  assert (H2 : contains "rsa" (strip (casefold "RSA3072")) = true) by reflexivity.
  assert (H3 : choice_convert (get_list_of_supported_keys sample_crypto) false "RSA3072"
               = Some "rsa3072") by (vm_compute; reflexivity).
  assert (H4 : "warning" ∈ LOG_LEVEL_NAMES)
    by (apply (bool_decide_unpack _); vm_compute; exact I).
  destruct (C6_accepted_rsa_token_size sample_crypto "RSA3072" H1 H2) as [Hacc _].
  destruct (Hacc "rsa3072" H3) as (_ & Hr & suffix & bits & Hs & Hi & _ & Hrun).
  assert (Hsuffix : suffix = "3072")
    by (apply (inj (String.append "rsa")); symmetry; exact Hs).
  subst suffix.
  assert (Hbits : bits = 3072) by (vm_compute in Hi; congruence).
  subst bits.
  destruct (Hrun "warning" "key.pem" None false empty_world) as (_ & _ & Hgen).
  split; [exact H1|]. split; [exact H2|]. split; [exact H3|]. split; [exact Hr|].
  apply Hgen; [exact H4 | |]; vm_compute; discriminate.
Defined.

(** C7: for a token that the command line accepts and that does not
    contain [rsa] once case-folded and trimmed, the normalized token of the
    run is exactly that case-folded and trimmed token, the run is not
    classified RSA, the only private-key generation a run can call is the
    elliptic-curve one with the normalized token as curve name, and it is
    called unless a validation fails. *)
Theorem C7_curve_name_passed_verbatim crypto token key_type :
  choice_convert (get_list_of_supported_keys crypto) false token = Some key_type ->
  contains "rsa" (strip (casefold token)) = false ->
  key_param key_type = strip (casefold token) /\
  is_rsa key_type = false /\
  forall log_level path password force w,
    let r := main crypto log_level key_type path password force w in
    (forall c, c ∈ new_calls w (snd r) -> step_of c = GeneratePrivate ->
               c = GenerateEccPrivateKey (strip (casefold token))) /\
    (fst r <> inl ValueError -> fst r <> inl InvalidDestination ->
     fst r <> inl FileExists ->
     new_calls w (snd r) !! 3%nat = Some (GenerateEccPrivateKey (strip (casefold token)))).
Proof.
  intros [Hin Hfold]%ChoiceFacts.choice_convert_folded_Some Hrsa.
  pose proof (key_param_casefold _ _ Hfold) as Hp.
  assert (Hec : is_rsa key_type = false) by (unfold is_rsa; by rewrite Hp).
  do 2 (split; [done|]). intros log_level path password force w.
  apply main_generates with (priv := EccPrivateKey (key_param key_type) (entropy w)).
  unfold planned_key. by rewrite Hec, Hp.
Qed.

Lemma C7_curve_name_passed_verbatim_witness :
  choice_convert (get_list_of_supported_keys sample_crypto) false "BRAINPOOLP256R1"
    = Some "brainpoolP256r1" /\
  contains "rsa" (strip (casefold "BRAINPOOLP256R1")) = false /\
  key_param "brainpoolP256r1" = "brainpoolp256r1" /\
  new_calls empty_world
    (snd (main sample_crypto "warning" "brainpoolP256r1" "key.pem" None false empty_world))
    !! 3%nat = Some (GenerateEccPrivateKey "brainpoolp256r1").
Proof.
  assert (H1 : choice_convert (get_list_of_supported_keys sample_crypto) false
                 "BRAINPOOLP256R1" = Some "brainpoolP256r1") by (vm_compute; reflexivity).
  assert (H2 : contains "rsa" (strip (casefold "BRAINPOOLP256R1")) = false) by reflexivity.
  destruct (C7_curve_name_passed_verbatim sample_crypto "BRAINPOOLP256R1"
              "brainpoolP256r1" H1 H2) as (Hp & _ & Hrun).
  destruct (Hrun "warning" "key.pem" None false empty_world) as [_ Hgen].
  split; [exact H1|]. split; [exact H2|]. split; [exact Hp|].
  apply Hgen; vm_compute; discriminate.
Defined.

(** C9, as stated, fails: while the module is loaded the list of supported
    keys is computed twice (line 60 and line 76), not once. *)
Lemma C9_key_list_computed_twice :
  proc_loads (load_module sample_crypto empty_world) <> 1%nat.
Proof. by vm_compute. Qed.

(** C9, amended: the choices of the key-type option are exactly the three
    RSA tokens together with the curve names of the registry; the list is
    computed twice while the module is loaded, once for the choices and
    once for the help text, with the same result; and no invocation of the
    command changes the option. *)
Theorem C9_advertised_key_types crypto w :
  let p := load_module crypto w in
  (forall t, t ∈ opt_choices (proc_option p) <->
             t ∈ ["rsa2048"; "rsa3072"; "rsa4096"] \/ t ∈ curve_types crypto) /\
  opt_all_options (proc_option p) = join ", " (opt_choices (proc_option p)) /\
  proc_loads p = 2%nat /\
  (forall a q, proc_option (snd (invoke crypto a q)) = proc_option q /\
               proc_loads (snd (invoke crypto a q)) = proc_loads q).
Proof.
  intros p. split; [|split; [done|split; [done|]]].
  - intros t. simpl. unfold get_list_of_supported_keys. by rewrite elem_of_app.
  - intros a q. unfold invoke. by destruct (cli _ _ _ _).
Qed.

(* ===================================================================== *)
(** * The order of the steps *)
(* ===================================================================== *)

(** C8: in every run of [main] the calls made follow the fixed order
    (destination check, the two existence checks, generation of the private
    key, derivation of the public key, saving of the private key, saving of
    the public key), the run stopping at the first failure.  So whenever a
    key is generated or derived, the destination check and both existence
    checks have been made before, as the first three calls; and whenever
    the public key is saved, the private key has been saved before. *)
Theorem C8_validate_then_generate_then_save
    crypto log_level key_type path password force w :
  let done := new_calls w (snd (main crypto log_level key_type path password force w)) in
  step_of <$> done `prefix_of` step_order /\
  (forall i c, done !! i = Some c ->
     step_of c = GeneratePrivate \/ step_of c = DerivePublic ->
     (3 <= i)%nat /\
     done !! 0%nat = Some (CheckDestinationDir path force) /\
     done !! 1%nat = Some (CheckFileExists path force) /\
     done !! 2%nat = Some (CheckFileExists (pub_key_path path) force)) /\
  (forall j c, done !! j = Some c -> step_of c = SavePublic ->
     exists i c', (i < j)%nat /\ done !! i = Some c' /\ step_of c' = SavePrivate).
Proof.
  intros done.
  destruct (main_steps crypto log_level key_type path password force w) as [m Hm].
  destruct (main_run crypto log_level key_type path password force w) as (n & Hc & _).
  apply new_calls_app in Hc. fold done in Hm, Hc.
  split; [rewrite Hm; apply prefix_take|]. split.
  - intros i c Hi Hs.
    assert (Hsi : take m step_order !! i = Some (step_of c))
      by (by rewrite <- Hm, list_lookup_fmap, Hi).
    apply step_order_lookup in Hsi as [Hsi Him].
    assert (3 <= i)%nat as Hi3.
    { destruct i as [|[|[|i]]]; [| | |lia]; simpl in Hsi; destruct Hs; congruence. }
    split; [done|].
    assert (3 < n)%nat as Hn.
    { rewrite Hc in Hi. apply lookup_take_Some in Hi. lia. }
    rewrite Hc, !lookup_take_lt by lia. done.
  - intros j c Hj Hs.
    assert (Hsj : take m step_order !! j = Some SavePublic)
      by (by rewrite <- Hm, list_lookup_fmap, Hj, <- Hs).
    apply step_order_lookup in Hsj as [Hsj Hjm].
    assert (j = 6%nat) as ->.
    { do 7 (destruct j as [|j]; [simpl in Hsj; congruence|]). done. }
    assert (Hs5 : (step_of <$> done) !! 5%nat = Some SavePrivate)
      by (rewrite Hm, lookup_take_lt by lia; done).
    rewrite list_lookup_fmap in Hs5.
    destruct (done !! 5%nat) as [c'|] eqn:E5; [|done].
    exists 5%nat, c'. split; [lia|]. split; [done|]. by injection Hs5.
Qed.

(* ===================================================================== *)
(** * How a run ends *)
(* ===================================================================== *)



(** X3: without [--force] no run of [main], however it ends, changes a file
    that was there before. *)
Theorem existing_files_survive_without_force
    crypto log_level key_type path password w p :
  is_Some (files w !! p) ->
  files (snd (main crypto log_level key_type path password false w)) !! p = files w !! p.
Proof.
  intros Hp.
  destruct (main_files crypto log_level key_type path password false w)
    as [Hf | ([? | [H1 H2]] & d1 & [Hf | [d2 Hf]])]; try done.
  - by rewrite Hf.
  - assert (p <> path) by (intros ->; rewrite H1 in Hp; by destruct Hp).
    by rewrite Hf, lookup_insert_ne.
  - assert (p <> path) by (intros ->; rewrite H1 in Hp; by destruct Hp).
    assert (p <> pub_key_path path) by (intros ->; rewrite H2 in Hp; by destruct Hp).
    by rewrite Hf, !lookup_insert_ne.
Qed.

Lemma existing_files_survive_without_force_witness :
  is_Some (files stocked_world !! "out/key.pub") /\
  files (snd (main sample_crypto "warning" "rsa2048" "out/key.pem" None false
                stocked_world)) !! "out/key.pub"
  = Some (OtherFile "old public key").
Proof.
  assert (H : is_Some (files stocked_world !! "out/key.pub"))
    by (apply (bool_decide_unpack _); vm_compute; exact I).
  split; [exact H|].
  rewrite (existing_files_survive_without_force sample_crypto "warning" "rsa2048"
             "out/key.pem" None stocked_world "out/key.pub" H).
  vm_compute. reflexivity.
Defined.

(** X4: a run of [main] touches no file other than the private-key path and
    the public-key path, and removes no file at all. *)
Theorem only_the_two_key_files_change
    crypto log_level key_type path password force w p :
  let r := main crypto log_level key_type path password force w in
  (p <> path -> p <> pub_key_path path -> files (snd r) !! p = files w !! p) /\
  (is_Some (files w !! p) -> is_Some (files (snd r) !! p)).
Proof.
  intros r.
  destruct (main_files crypto log_level key_type path password force w)
    as [Hf | (_ & d1 & [Hf | [d2 Hf]])]; fold r in Hf; rewrite Hf.
  - done.
  - split.
    + intros H1 H2. by rewrite lookup_insert_ne.
    + intros Hp. destruct (decide (path = p)) as [-> | ?];
        [rewrite lookup_insert_eq; eauto | by rewrite lookup_insert_ne].
  - split.
    + intros H1 H2. by rewrite !lookup_insert_ne.
    + intros Hp. destruct (decide (pub_key_path path = p)) as [<- | ?];
        [rewrite lookup_insert_eq; eauto|]. rewrite lookup_insert_ne by done.
      destruct (decide (path = p)) as [-> | ?];
        [rewrite lookup_insert_eq; eauto | by rewrite lookup_insert_ne].
Qed.

Lemma only_the_two_key_files_change_witness :
  "out/key.pub" <> "out/dev.pem" /\ "out/key.pub" <> pub_key_path "out/dev.pem" /\
  files (snd (main sample_crypto "warning" "secp256r1" "out/dev.pem" None true
                stocked_world)) !! "out/key.pub"
  = Some (OtherFile "old public key").
Proof.
  assert (H1 : "out/key.pub" <> "out/dev.pem") by discriminate.
  assert (H2 : "out/key.pub" <> pub_key_path "out/dev.pem") by (vm_compute; discriminate).
  split; [exact H1|]. split; [exact H2|].
  rewrite (proj1 (only_the_two_key_files_change sample_crypto "warning" "secp256r1"
                    "out/dev.pem" None true stocked_world "out/key.pub") H1 H2).
  vm_compute. reflexivity.
Defined.





(** X7: a run never mixes the two key families: it calls RSA functions of
    the crypto package only when the token is classified RSA and
    elliptic-curve functions only when it is not. *)
Theorem calls_follow_classification
    crypto log_level key_type path password force w c :
  c ∈ new_calls w (snd (main crypto log_level key_type path password force w)) ->
  (is_rsa_call c = true -> is_rsa key_type = true) /\
  (is_ecc_call c = true -> is_rsa key_type = false).
Proof.
  intros Hc%new_calls_planned. unfold planned_calls, planned_key in Hc.
  destruct (is_rsa key_type); [destruct (int _)|]; simpl in Hc;
    rewrite !elem_of_cons, elem_of_nil in Hc;
    repeat (destruct Hc as [-> | Hc]; [by split|]); done.
Qed.

Lemma calls_follow_classification_witness :
  let c := GenerateEccPrivateKey "secp256r1" in
  c ∈ new_calls empty_world
        (snd (main sample_crypto "warning" "secp256r1" "key.pem" None false empty_world)) /\
  is_rsa "secp256r1" = false.
Proof.
  intros c.
  assert (Hc : c ∈ new_calls empty_world
                 (snd (main sample_crypto "warning" "secp256r1" "key.pem" None false
                         empty_world)))
    by (apply list_elem_of_lookup; exists 3%nat; vm_compute; reflexivity).
  split; [exact Hc|].
  exact (proj2 (calls_follow_classification sample_crypto "warning" "secp256r1" "key.pem"
                  None false empty_world c Hc) eq_refl).
Defined.

(** X8: every token that [get_list_of_supported_keys] advertises is accepted
    by the key-type option in any letter case, and [main] then works on the
    same normalized token and classification as for the advertised one. *)
Theorem advertised_tokens_are_accepted crypto c token :
  c ∈ get_list_of_supported_keys crypto ->
  casefold token = casefold c ->
  exists key_type,
    choice_convert (get_list_of_supported_keys crypto) false token = Some key_type /\
    key_type ∈ get_list_of_supported_keys crypto /\
    key_param key_type = key_param c /\
    is_rsa key_type = is_rsa c.
Proof.
  intros Hc Hfold.
  destruct (choice_convert (get_list_of_supported_keys crypto) false token)
    as [key_type|] eqn:E.
  - apply ChoiceFacts.choice_convert_folded_Some in E as [Hin Hk].
    exists key_type. split; [done|]. split; [done|].
    assert (Hp : key_param key_type = key_param c)
      by (rewrite (key_param_casefold _ _ Hk), Hfold; symmetry;
          by apply key_param_casefold).
    split; [done|]. unfold is_rsa. by rewrite Hp.
  - exfalso. rewrite ChoiceFacts.choice_convert_folded_None in E. by apply (E c).
Qed.

Lemma advertised_tokens_are_accepted_witness :
  "secp521r1" ∈ get_list_of_supported_keys sample_crypto /\
  casefold "SecP521R1" = casefold "secp521r1" /\
  exists key_type,
    choice_convert (get_list_of_supported_keys sample_crypto) false "SecP521R1"
      = Some key_type /\
    key_param key_type = "secp521r1".
Proof.
  assert (H1 : "secp521r1" ∈ get_list_of_supported_keys sample_crypto)
    by (apply list_elem_of_lookup; exists 9%nat; vm_compute; reflexivity).
  assert (H2 : casefold "SecP521R1" = casefold "secp521r1") by reflexivity.
  destruct (advertised_tokens_are_accepted sample_crypto "secp521r1" "SecP521R1" H1 H2)
    as (key_type & Hacc & _ & Hp & _).
  split; [exact H1|]. split; [exact H2|]. exists key_type. split; [exact Hacc | exact Hp].
Defined.

(** X9: with no key type on the command line the default [RSA2048] is
    accepted whatever the curve registry holds: once the log level is
    accepted (as it is when none is given), the command is a run of [main]
    on a token that normalizes to [rsa2048] and is classified RSA.  The
    only private key such a run can generate is an RSA key of 2048 bits,
    and it is generated unless the log level, the destination check or a
    file-existence check refuses the run. *)
Theorem default_key_type_is_rsa2048 crypto a w :
  arg_key_type a = None ->
  let opt := fst (key_type_option crypto 0) in
  let r := cli crypto opt a w in
  exists key_type,
    choice_convert (opt_choices opt) (opt_case_sensitive opt) (opt_default opt)
      = Some key_type /\
    key_param key_type = "rsa2048" /\ is_rsa key_type = true /\
    (forall log_level,
       choice_convert LOG_LEVEL_NAMES true (default "warning" (arg_debug a))
         = Some log_level ->
       r = main crypto log_level key_type (arg_path a) (arg_password a) (arg_force a) w) /\
    (arg_debug a = None ->
     r = main crypto "warning" key_type (arg_path a) (arg_password a) (arg_force a) w) /\
    (forall c, c ∈ new_calls w (snd r) -> step_of c = GeneratePrivate ->
               c = GenerateRsaPrivateKey 2048) /\
    (fst r <> inl InvalidChoice -> fst r <> inl InvalidDestination ->
     fst r <> inl FileExists ->
     new_calls w (snd r) !! 3%nat = Some (GenerateRsaPrivateKey 2048)).
Proof.
  intros Ha opt r.
  destruct (advertised_tokens_are_accepted crypto "rsa2048" "RSA2048")
    as (key_type & Hacc & _ & Hp & Hr); [|done|].
  { unfold get_list_of_supported_keys. apply elem_of_app. left. apply elem_of_cons. by left. }
  change (key_param "rsa2048") with "rsa2048" in Hp.
  change (is_rsa "rsa2048") with true in Hr.
  exists key_type. split; [exact Hacc|]. split; [done|]. split; [done|].
  assert (Hrun : forall log_level,
            choice_convert LOG_LEVEL_NAMES true (default "warning" (arg_debug a))
              = Some log_level ->
            r = main crypto log_level key_type (arg_path a) (arg_password a)
                  (arg_force a) w).
  { intros log_level Hl. unfold r, cli, bind, lift_option. rewrite Hl, Ha. simpl.
    change (choice_convert _ _ _) with
      (choice_convert (get_list_of_supported_keys crypto) false "RSA2048").
    by rewrite Hacc. }
  split; [exact Hrun|]. split.
  { intros Hd. apply Hrun. rewrite Hd. vm_compute. reflexivity. }
  assert (Hk : planned_key key_type (entropy w)
               = Some (GenerateRsaPrivateKey 2048, RsaPrivateKey 2048 (entropy w))).
  { unfold planned_key. rewrite Hr, Hp. reflexivity. }
  destruct (choice_convert LOG_LEVEL_NAMES true (default "warning" (arg_debug a)))
    as [log_level|] eqn:El.
  - rewrite (Hrun log_level eq_refl).
    destruct (main_generates crypto log_level key_type (arg_path a) (arg_password a)
                (arg_force a) w _ _ Hk) as [Hgen Hcall].
    split; [exact Hgen|]. intros _ H1 H2. apply Hcall; [|done|done].
    intros Hv.
    apply ChoiceFacts.choice_convert_exact_Some in El as [-> Hin].
    destruct (main_value_error _ _ _ _ _ _ _ Hin Hv) as [_ Hi].
    unfold planned_key in Hk. rewrite Hr, Hi in Hk. done.
  - assert (Hrej : r = (inl InvalidChoice, w))
      by (unfold r, cli, bind, lift_option; by rewrite El).
    rewrite Hrej. simpl. unfold new_calls. rewrite drop_all.
    split; [by intros c ?%elem_of_nil | done].
Qed.

Lemma default_key_type_is_rsa2048_witness :
  let a := mkArgs None None None "key.pem" false in
  arg_key_type a = None /\
  exists key_type,
    cli sample_crypto (fst (key_type_option sample_crypto 0)) a empty_world
    = main sample_crypto "warning" key_type "key.pem" None false empty_world /\
    key_param key_type = "rsa2048" /\
    new_calls empty_world
      (snd (cli sample_crypto (fst (key_type_option sample_crypto 0)) a empty_world))
      !! 3%nat = Some (GenerateRsaPrivateKey 2048).
Proof.
  intros a.
  destruct (default_key_type_is_rsa2048 sample_crypto a empty_world eq_refl)
    as (key_type & _ & Hp & _ & _ & Hrun & _ & Hgen).
  split; [reflexivity|]. exists key_type.
  split; [exact (Hrun eq_refl)|]. split; [exact Hp|].
  apply Hgen; vm_compute; discriminate.
Defined.

(** X10: with a curve registry none of whose names is classified RSA, a run
    through the command line never ends in a [ValueError]: the log level
    that the option lets through is known to [logging], and the size of an
    accepted RSA token always parses. *)
Theorem command_line_run_has_no_value_error crypto a w :
  (forall c, c ∈ curve_types crypto -> is_rsa c = false) ->
  fst (cli crypto (fst (key_type_option crypto 0)) a w) <> inl ValueError.
Proof.
  intros Hreg. unfold cli, bind, lift_option. simpl.
  destruct (choice_convert LOG_LEVEL_NAMES true _) as [log_level|] eqn:El; simpl; [|done].
  destruct (choice_convert (get_list_of_supported_keys crypto) false _)
    as [key_type|] eqn:Ek; simpl; [|done].
  intros Hv.
  destruct (main_outcome crypto log_level key_type (arg_path a)
              (arg_password a) (arg_force a) w) as (Hcause & _).
  destruct (Hcause Hv) as [Hl | [Hr Hi]].
  - apply Hl, known_level.
    apply ChoiceFacts.choice_convert_exact_Some in El as [-> Hin]. exact Hin.
  - pose proof Ek as [Hin _]%ChoiceFacts.choice_convert_folded_Some.
    unfold get_list_of_supported_keys in Hin. apply elem_of_app in Hin as [Hin | Hin].
    + destruct (rsa_tokens_planned key_type 0 Hin) as (suffix & bits & _ & _ & _ & Hk).
      unfold planned_key in Hk. rewrite Hr, Hi in Hk. done.
    + rewrite (Hreg _ Hin) in Hr. done.
Qed.

Lemma command_line_run_has_no_value_error_witness :
  (forall c, c ∈ curve_types sample_crypto -> is_rsa c = false) /\
  fst (cli sample_crypto (fst (key_type_option sample_crypto 0))
         (mkArgs (Some "debug") (Some "RSA4096") None "key.pem" false) empty_world)
  <> inl ValueError.
Proof.
  assert (H1 : forall c, c ∈ curve_types sample_crypto -> is_rsa c = false).
  { apply Forall_forall. apply (bool_decide_unpack _). vm_compute. exact I. }
  split; [exact H1|].
  exact (command_line_run_has_no_value_error sample_crypto _ empty_world H1).
Defined.

(** X11: the log-level option is case sensitive: a level written with an
    upper-case letter is refused as an invalid choice before [main] is
    called, although [main] would upper-case the level anyway. *)
Theorem log_level_with_upper_case_is_refused crypto opt a w level :
  arg_debug a = Some level ->
  lower level <> level ->
  (level ∉ LOG_LEVEL_NAMES) /\ cli crypto opt a w = (inl InvalidChoice, w).
Proof.
  intros Ha Hl.
  assert (Hnames : Forall (fun n => lower n = n) LOG_LEVEL_NAMES)
    by (apply (bool_decide_unpack _); by vm_compute).
  rewrite Forall_forall in Hnames.
  assert (Hout : level ∉ LOG_LEVEL_NAMES) by (intros Hin; by apply Hl, Hnames).
  split; [done|].
  unfold cli, bind, lift_option. rewrite Ha. simpl.
  assert (Hnone : choice_convert LOG_LEVEL_NAMES true level = None).
  { unfold choice_convert.
    change (fold_left _ LOG_LEVEL_NAMES [])
      with (ChoiceFacts.build id id LOG_LEVEL_NAMES []).
    apply ChoiceFacts.build_get_None. split; [|done].
    intros x Hx Heq. simpl in Heq. by subst. }
  by rewrite Hnone.
Qed.

Lemma log_level_with_upper_case_is_refused_witness :
  let a := mkArgs (Some "DEBUG") None None "key.pem" false in
  arg_debug a = Some "DEBUG" /\ lower "DEBUG" <> "DEBUG" /\
  cli sample_crypto (fst (key_type_option sample_crypto 0)) a empty_world
  = (inl InvalidChoice, empty_world).
Proof.
  intros a.
  assert (H2 : lower "DEBUG" <> "DEBUG") by (vm_compute; discriminate).
  split; [reflexivity|]. split; [exact H2|].
  exact (proj2 (log_level_with_upper_case_is_refused sample_crypto _ a empty_world
                  "DEBUG" eq_refl H2)).
Defined.



(* ===================================================================== *)
(** * More on the public-key path *)
(* ===================================================================== *)

Module SplitFacts.
Import StrFacts PathFacts.
#[local] Arguments String.append : simpl nomatch.

Lemma length_take n s :
  String.length (str_take n s) = Nat.min n (String.length s).
Proof.
  revert n. induction s as [|a s IH]; intros [|n]; simpl; try done.
  by rewrite IH.
Qed.

Lemma take_app_ge n s t :
  str_take (String.length s + n) (s +:+ t) = s +:+ str_take n t.
Proof. induction s as [|a s IH]; simpl; [done | by rewrite IH]. Qed.

Lemma drop_app_length s t : str_drop (String.length s) (s +:+ t) = t.
Proof. induction s as [|a s IH]; simpl; [done | by rewrite IH]. Qed.

Lemma drop_add n m s : str_drop (n + m) s = str_drop m (str_drop n s).
Proof.
  revert n. induction s as [|a s IH]; intros [|n]; simpl; try done.
  by destruct m.
Qed.

Lemma drop_take n m s : str_drop n (str_take m s) = str_take (m - n) (str_drop n s).
Proof.
  revert n m. induction s as [|a s IH]; intros [|n] [|m]; simpl; try done;
    first [apply IH | by destruct (m - n)%nat].
Qed.

Lemma rfind_take_absent c n s : rfind c s = -1 -> rfind c (str_take n s) = -1.
Proof.
  revert n. induction s as [|a s IH]; intros [|n]; simpl; try done.
  pose proof (rfind_bounds c s). destruct (0 <=? rfind c s) eqn:E; [lia|].
  destruct (Ascii.eqb a c); [lia|]. intros _. rewrite IH by lia. done.
Qed.

(** A path is its head (up to and including the last separator) followed
    by its base name, which holds no separator. *)
Lemma head_basename p :
  slice_to (rfind sep p + 1) p +:+ basename p = p /\
  rfind sep (basename p) = -1 /\
  rfind sep (slice_to (rfind sep p + 1) p) = rfind sep p /\
  String.length (slice_to (rfind sep p + 1) p) = Z.to_nat (rfind sep p + 1).
Proof.
  pose proof (rfind_bounds sep p) as Hb.
  unfold slice_to, basename, slice_from.
  assert (H1 : rfind sep (str_drop (Z.to_nat (rfind sep p + 1)) p) = -1)
    by (apply rfind_drop_absent; lia).
  split; [apply take_drop|]. split; [done|]. split.
  - rewrite <- (take_drop (Z.to_nat (rfind sep p + 1)) p) at 3.
    by rewrite rfind_app_absent.
  - rewrite length_take. lia.
Qed.

(** A name without separator splits at its last dot unless only dots
    come before it. *)
Lemma splitext_name b :
  rfind sep b = -1 ->
  splitext b =
  if 0 <=? rfind extsep b then
    let todo := Z.to_nat (rfind extsep b) in
    if String.eqb (str_take todo b) (repeat_char extsep todo)
    then (b, EmptyString) else (str_take todo b, str_drop todo b)
  else (b, EmptyString).
Proof.
  intros Hbs. pose proof (rfind_bounds extsep b) as Hdb.
  unfold splitext. rewrite Hbs.
  destruct (0 <=? rfind extsep b) eqn:E.
  - apply Z.leb_le in E.
    destruct (-1 <? rfind extsep b) eqn:E2; [|apply Z.ltb_ge in E2; lia].
    replace (Z.to_nat (rfind extsep b - (-1 + 1))) with (Z.to_nat (rfind extsep b)) by lia.
    change (-1 + 1) with (Z.of_nat 0).
    rewrite splitext_scan_spec by lia. change (str_drop 0 b) with b. simpl.
    by destruct (String.eqb _ _).
  - apply Z.leb_gt in E.
    destruct (-1 <? rfind extsep b) eqn:E2; [apply Z.ltb_lt in E2; lia | done].
Qed.

(** Splitting a path is splitting its base name. *)
Lemma splitext_basename p :
  splitext p =
  (slice_to (rfind sep p + 1) p +:+ fst (splitext (basename p)),
   snd (splitext (basename p))).
Proof.
  destruct (head_basename p) as (Hp & Hbs & Hhs & Hlen).
  pose proof (rfind_bounds sep p) as Hsb.
  set (f := Z.to_nat (rfind sep p + 1)) in *.
  set (h := slice_to (rfind sep p + 1) p) in *.
  set (b := basename p) in *.
  assert (Hb : b = str_drop f p) by reflexivity.
  pose proof (rfind_bounds extsep b) as Hdb.
  pose proof (rfind_bounds extsep h) as Hdh.
  rewrite (splitext_name b Hbs).
  destruct (0 <=? rfind extsep b) eqn:E.
  - apply Z.leb_le in E.
    assert (Hdot : rfind extsep p = Z.of_nat f + rfind extsep b)
      by (rewrite <- Hp at 1; rewrite rfind_app_present by done; lia).
    unfold splitext. rewrite Hdot.
    destruct (rfind sep p <? Z.of_nat f + rfind extsep b) eqn:E1;
      [|apply Z.ltb_ge in E1; lia].
    set (todo := Z.to_nat (rfind extsep b)).
    replace (Z.to_nat (Z.of_nat f + rfind extsep b - (rfind sep p + 1))) with todo by lia.
    replace (rfind sep p + 1) with (Z.of_nat f) by lia.
    assert (Hlp : String.length p = (f + String.length b)%nat)
      by (rewrite <- Hp at 1; rewrite length_app; lia).
    rewrite splitext_scan_spec by lia. rewrite <- Hb. cbv zeta.
    destruct (String.eqb (str_take todo b) (repeat_char extsep todo)); simpl.
    + by rewrite Hp.
    + unfold slice_to, slice_from. f_equal.
      * replace (Z.to_nat (Z.of_nat f + rfind extsep b)) with (String.length h + todo)%nat
          by lia.
        rewrite <- Hp at 1. by rewrite take_app_ge.
      * replace (Z.to_nat (Z.of_nat f + rfind extsep b)) with (f + todo)%nat by lia.
        by rewrite drop_add, <- Hb.
  - apply Z.leb_gt in E.
    assert (Hdot : rfind extsep p = rfind extsep h)
      by (rewrite <- Hp at 1; apply rfind_app_absent; lia).
    unfold splitext. rewrite Hdot.
    destruct (rfind sep p <? rfind extsep h) eqn:E1; [apply Z.ltb_lt in E1; lia|].
    simpl. by rewrite Hp.
Qed.

Lemma splitext_root_no_sep b :
  rfind sep b = -1 -> rfind sep (fst (splitext b)) = -1.
Proof.
  intros H. destruct (splitext_cases b) as [-> | [_ ->]]; simpl; [done|].
  by apply rfind_take_absent.
Qed.

(** A root followed by a non-empty extension has a stem. *)
Lemma has_stem_root p :
  has_stem p = true -> has_stem (fst (splitext p)) = true.
Proof.
  intros Hs. rewrite splitext_basename. simpl.
  destruct (head_basename p) as (Hp & Hbs & Hhs & Hlen).
  set (h := slice_to (rfind sep p + 1) p) in *.
  set (b := basename p) in *.
  assert (Hrs : rfind sep (fst (splitext b)) = -1) by by apply splitext_root_no_sep.
  unfold has_stem, basename, slice_from.
  rewrite (rfind_app_absent _ _ _ Hrs), Hhs, <- Hlen, drop_app_length.
  (* the base name is split in place *)
  unfold has_stem in Hs. fold b in Hs.
  rewrite (splitext_name b Hbs).
  pose proof (rfind_bounds extsep b) as Hdb.
  destruct (0 <=? rfind extsep b) eqn:E; [|done]. apply Z.leb_le in E. cbv zeta.
  set (todo := Z.to_nat (rfind extsep b)).
  destruct (String.eqb (str_take todo b) (repeat_char extsep todo)) eqn:Ed; simpl; [done|].
  unfold all_dots.
  rewrite length_take. replace (Nat.min todo (String.length b)) with todo by lia.
  by rewrite Ed.
Qed.

End SplitFacts.

(** X1: the public-key path lies in the directory of the private-key path,
    and its file name is the file name of the private-key path with the
    extension replaced by [.pub]. *)
Theorem public_key_file_sits_beside_private_key path :
  dirname (pub_key_path path) = dirname path /\
  basename (pub_key_path path) = fst (splitext (basename path)) +:+ ".pub".
Proof.
  split; [apply dirname_pub_key_path|].
  unfold pub_key_path. rewrite (SplitFacts.splitext_basename path). simpl.
  destruct (SplitFacts.head_basename path) as (_ & Hbs & Hhs & Hlen).
  rewrite StrFacts.app_assoc.
  assert (Hx : rfind sep (fst (splitext (basename path)) +:+ ".pub") = -1).
  { rewrite StrFacts.rfind_app_absent by done.
    by apply SplitFacts.splitext_root_no_sep. }
  unfold basename at 1, slice_from.
  rewrite (StrFacts.rfind_app_absent _ _ _ Hx), Hhs, <- Hlen.
  apply SplitFacts.drop_app_length.
Qed.

(** X2: for a path whose file name is not made of dots only, the public-key
    path splits into the root of the private-key path and the extension
    [.pub], and deriving the public-key path of the public-key path gives
    the same path again. *)
Theorem public_key_path_is_a_fixed_point path :
  has_stem path = true ->
  splitext (pub_key_path path) = (fst (splitext path), ".pub") /\
  pub_key_path (pub_key_path path) = pub_key_path path.
Proof.
  intros Hs%SplitFacts.has_stem_root.
  assert (H : splitext (pub_key_path path) = (fst (splitext path), ".pub"))
    by (unfold pub_key_path; by apply PathFacts.splitext_root_ext).
  split; [done|]. unfold pub_key_path at 1. by rewrite H.
Qed.

Lemma public_key_path_is_a_fixed_point_witness :
  has_stem "out/dev.key.pem" = true /\
  pub_key_path "out/dev.key.pem" = "out/dev.key.pub" /\
  pub_key_path (pub_key_path "out/dev.key.pem") = pub_key_path "out/dev.key.pem".
Proof.
  assert (H : has_stem "out/dev.key.pem" = true) by reflexivity.
  split; [exact H|]. split; [reflexivity|].
  exact (proj2 (public_key_path_is_a_fixed_point "out/dev.key.pem" H)).
Defined.
